(** * Zendesk source: extraction of organizations, users, tickets and comments

    A shallow embedding of [backend/app/platform/sources/zendesk.py]
    ([ZendeskSource]) and the properties of its chunk stream.

    - Values decoded by [response.json()] are the type [json].
    - Python's builtins used by the source ([str], [dict.get], subscripting,
      iteration, truthiness) are written out on that type.
    - The four async generators are written in continuation style: a
      generator takes the body of the [async for] that consumes it, so that
      the requests of the consumer interleave with those of the generator
      exactly as they do when the generator is suspended at its [yield].
    - The remote service is a script of replies, handed out one per GET, and
      every request and every yielded chunk is logged in the [world]. *)

From Stdlib Require Import ZArith List String Ascii Bool Lia DecimalString DecimalZ.
Import ListNotations.
Open Scope string_scope.
Open Scope Z_scope.

Set Warnings "-register-all".

(** ** JSON values as Python objects *)

(** What [response.json()] returns.  A [float] is held by the text Python
    prints for it ([repr]); a [dict] by its items in insertion order (the
    keys of a dict are distinct); a [str] by its characters, one [ascii]
    per code point (code points below 256). *)
Inductive json : Type :=
| JNull
| JBool (b : bool)
| JInt (n : Z)
| JFloat (text : string)
| JStr (s : string)
| JList (items : list json)
| JObj (fields : list (string * json)).

(** Python exceptions the source can raise. *)
Inductive exn : Type :=
| KeyError (key : string)
| TypeError
| AttributeError
| JSONDecodeError
| HTTPStatusError (status_code : Z)
| RequestError.

(** Result of a pure Python expression: a value or a raised exception. *)
Inductive result (A : Type) : Type :=
| Ok (a : A)
| Err (e : exn).
Arguments Ok {A} a.
Arguments Err {A} e.

Definition rbind {A B} (r : result A) (f : A -> result B) : result B :=
  match r with
  | Ok a => f a
  | Err e => Err e
  end.

Declare Scope result_scope.
Delimit Scope result_scope with result.
Notation "x <- c ;; k" := (rbind c (fun x => k))
  (at level 61, c at next level, right associativity) : result_scope.

(** *** Truthiness: [bool(v)], as used by [while url:] and by [or]. *)
Definition truthy (v : json) : bool :=
  match v with
  | JNull => false
  | JBool b => b
  | JInt n => negb (n =? 0)
  | JFloat t => negb (String.eqb t "0.0" || String.eqb t "-0.0")
  | JStr s => negb (String.eqb s "")
  | JList l => match l with [] => false | _ :: _ => true end
  | JObj f => match f with [] => false | _ :: _ => true end
  end.

(** *** [str] and [repr] *)

Definition dquote : ascii := "034"%char.
Definition squote : ascii := "039"%char.
Definition backslash : ascii := "092"%char.

Fixpoint contains (c : ascii) (s : string) : bool :=
  match s with
  | EmptyString => false
  | String d s' => Ascii.eqb c d || contains c s'
  end.

Definition hex_digit (n : N) : ascii :=
  match String.get (N.to_nat n) "0123456789abcdef" with
  | Some c => c
  | None => "0"%char
  end.

(** A code point below 256 that [str.isprintable] rejects: the C0 and C1
    controls, DEL, the no-break space and the soft hyphen. *)
Definition unprintable (n : N) : bool :=
  ((n <? 32) || ((127 <=? n) && (n <=? 160)) || (n =? 173))%N.

Definition repr_char (quote c : ascii) : string :=
  let n := N_of_ascii c in
  if Ascii.eqb c quote || Ascii.eqb c backslash then String backslash (String c "")
  else if (n =? 9)%N then String backslash "t"
  else if (n =? 10)%N then String backslash "n"
  else if (n =? 13)%N then String backslash "r"
  else if unprintable n then
    String backslash (String "x" (String (hex_digit (n / 16)) (String (hex_digit (n mod 16)) "")))
  else String c "".

Fixpoint repr_chars (quote : ascii) (s : string) : string :=
  match s with
  | EmptyString => ""
  | String c s' => repr_char quote c ++ repr_chars quote s'
  end.

(** [repr] of a [str]: single quotes, unless the text has a single quote
    and no double quote. *)
Definition repr_str (s : string) : string :=
  let quote := if contains squote s && negb (contains dquote s) then dquote else squote in
  String quote (repr_chars quote s ++ String quote "").

Definition str_of_int (n : Z) : string := NilZero.string_of_int (Z.to_int n).

Fixpoint py_repr (v : json) : string :=
  match v with
  | JNull => "None"
  | JBool true => "True"
  | JBool false => "False"
  | JInt n => str_of_int n
  | JFloat t => t
  | JStr s => repr_str s
  | JList l => "[" ++ String.concat ", " (map py_repr l) ++ "]"
  | JObj f =>
      "{" ++ String.concat ", "
               (map (fun kv => match kv with (k, x) => repr_str k ++ ": " ++ py_repr x end) f)
          ++ "}"
  end.

(** [str(v)] *)
Definition py_str (v : json) : string :=
  match v with
  | JStr s => s
  | _ => py_repr v
  end.

(** *** Dictionaries *)

Fixpoint dict_get (key : string) (d : list (string * json)) : option json :=
  match d with
  | [] => None
  | (k, v) :: d' => if String.eqb key k then Some v else dict_get key d'
  end.

(** [v.get(key, default)]: only a dict has [get]. *)
Definition py_get (v : json) (key : string) (default : json) : result json :=
  match v with
  | JObj d => match dict_get key d with
              | Some x => Ok x
              | None => Ok default
              end
  | _ => Err AttributeError
  end.

(** [v[key]] with a string key: [KeyError] on a dict without the key; a
    list or a str takes integer indices only, and no other JSON value can
    be subscripted. *)
Definition py_getitem (v : json) (key : string) : result json :=
  match v with
  | JObj d => match dict_get key d with
              | Some x => Ok x
              | None => Err (KeyError key)
              end
  | _ => Err TypeError
  end.

Fixpoint chars (s : string) : list json :=
  match s with
  | EmptyString => []
  | String c s' => JStr (String c "") :: chars s'
  end.

(** [iter(v)] run to the end: the elements of a list, the characters of a
    str, the keys of a dict; nothing else is iterable. *)
Definition py_iter (v : json) : result (list json) :=
  match v with
  | JList l => Ok l
  | JStr s => Ok (chars s)
  | JObj d => Ok (map (fun kv => JStr (fst kv)) d)
  | _ => Err TypeError
  end.

(** [s or None] for a str [s]. *)
Definition or_None (s : string) : option string :=
  if truthy (JStr s) then Some s else None.

(** ** Chunk schemas *)

(** Modelled from the spec: the chunk classes of
    [app.platform.chunks.zendesk] (and [BaseChunk]) are not among the
    sources.  The spec treats them as plain data contracts whose field set
    is the one the constructor calls name, so a constructor stores the
    keyword arguments it is given: a field filled by [record.get(...)]
    holds whatever JSON value the record has there, [entity_id] and
    [source_name] hold a str, a foreign key a str or [None]. *)

Module ZendeskOrganizationChunk.
Record t : Type := mk {
    source_name : string;
    entity_id : string;
    name : json;
    domain_names : json;
    created_at : json;
    updated_at : json;
    details : json;
    notes : json;
    group_id : json;
    shared_tickets : json;
    shared_comments : json;
    external_id : json;
    archived : bool
  }.
End ZendeskOrganizationChunk.

Module ZendeskUserChunk.
Record t : Type := mk {
    source_name : string;
    entity_id : string;
    name : json;
    email : json;
    role : json;
    time_zone : json;
    locale : json;
    created_at : json;
    updated_at : json;
    suspended : json;
    archived : bool
  }.
End ZendeskUserChunk.

Module ZendeskTicketChunk.
Record t : Type := mk {
    source_name : string;
    entity_id : string;
    subject : json;
    description : json;
    type : json;
    priority : json;
    status : json;
    tags : json;
    requester_id : option string;
    assignee_id : option string;
    organization_id : option string;
    group_id : option string;
    created_at : json;
    updated_at : json;
    due_at : json;
    via : json;
    custom_fields : json;
    archived : bool
  }.
End ZendeskTicketChunk.

Module ZendeskCommentChunk.
Record t : Type := mk {
    source_name : string;
    entity_id : string;
    ticket_id : string;
    author_id : option string;
    plain_body : json;
    html_body : json;
    public : json;
    created_at : json;
    attachments : json;
    archived : bool
  }.
End ZendeskCommentChunk.

(** What a generator of the source yields. *)
Inductive BaseChunk : Type :=
| OrganizationChunk (c : ZendeskOrganizationChunk.t)
| UserChunk (c : ZendeskUserChunk.t)
| TicketChunk (c : ZendeskTicketChunk.t)
| CommentChunk (c : ZendeskCommentChunk.t).

Definition source_name (c : BaseChunk) : string :=
  match c with
  | OrganizationChunk o => ZendeskOrganizationChunk.source_name o
  | UserChunk u => ZendeskUserChunk.source_name u
  | TicketChunk t => ZendeskTicketChunk.source_name t
  | CommentChunk m => ZendeskCommentChunk.source_name m
  end.

Definition entity_id (c : BaseChunk) : string :=
  match c with
  | OrganizationChunk o => ZendeskOrganizationChunk.entity_id o
  | UserChunk u => ZendeskUserChunk.entity_id u
  | TicketChunk t => ZendeskTicketChunk.entity_id t
  | CommentChunk m => ZendeskCommentChunk.entity_id m
  end.

Definition archived (c : BaseChunk) : bool :=
  match c with
  | OrganizationChunk o => ZendeskOrganizationChunk.archived o
  | UserChunk u => ZendeskUserChunk.archived u
  | TicketChunk t => ZendeskTicketChunk.archived t
  | CommentChunk m => ZendeskCommentChunk.archived m
  end.

(** ** The chunk built from one record

    The keyword arguments of each constructor call, evaluated left to
    right as Python does. *)

Section Builders.
Local Open Scope result_scope.

  (** [ZendeskOrganizationChunk(...)] of [_generate_organization_chunks]. *)
Definition organization_chunk (org : json) : result ZendeskOrganizationChunk.t :=
    id <- py_getitem org "id" ;;
    name <- py_get org "name" JNull ;;
    domain_names <- py_get org "domain_names" (JList []) ;;
    created_at <- py_get org "created_at" JNull ;;
    updated_at <- py_get org "updated_at" JNull ;;
    details <- py_get org "details" JNull ;;
    notes <- py_get org "notes" JNull ;;
    group_id <- py_get org "group_id" JNull ;;
    shared_tickets <- py_get org "shared_tickets" (JBool false) ;;
    shared_comments <- py_get org "shared_comments" (JBool false) ;;
    external_id <- py_get org "external_id" JNull ;;
    Ok (ZendeskOrganizationChunk.mk "zendesk" (py_str id) name domain_names
          created_at updated_at details notes group_id shared_tickets
          shared_comments external_id false).

  (** [ZendeskUserChunk(...)] of [_generate_user_chunks]. *)
Definition user_chunk (user : json) : result ZendeskUserChunk.t :=
    id <- py_getitem user "id" ;;
    name <- py_get user "name" JNull ;;
    email <- py_get user "email" JNull ;;
    role <- py_get user "role" JNull ;;
    time_zone <- py_get user "time_zone" JNull ;;
    locale <- py_get user "locale" JNull ;;
    created_at <- py_get user "created_at" JNull ;;
    updated_at <- py_get user "updated_at" JNull ;;
    suspended <- py_get user "suspended" (JBool false) ;;
    Ok (ZendeskUserChunk.mk "zendesk" (py_str id) name email role time_zone
          locale created_at updated_at suspended false).

  (** [str(record.get(key, "")) or None] *)
Definition foreign_key (record : json) (key : string) : result (option string) :=
    v <- py_get record key (JStr "") ;;
    Ok (or_None (py_str v)).

  (** [ZendeskTicketChunk(...)] of [_generate_ticket_chunks]. *)
Definition ticket_chunk (ticket : json) : result ZendeskTicketChunk.t :=
    id <- py_getitem ticket "id" ;;
    subject <- py_get ticket "subject" JNull ;;
    description <- py_get ticket "description" JNull ;;
    type <- py_get ticket "type" JNull ;;
    priority <- py_get ticket "priority" JNull ;;
    status <- py_get ticket "status" JNull ;;
    tags <- py_get ticket "tags" (JList []) ;;
    requester_id <- foreign_key ticket "requester_id" ;;
    assignee_id <- foreign_key ticket "assignee_id" ;;
    organization_id <- foreign_key ticket "organization_id" ;;
    group_id <- foreign_key ticket "group_id" ;;
    created_at <- py_get ticket "created_at" JNull ;;
    updated_at <- py_get ticket "updated_at" JNull ;;
    due_at <- py_get ticket "due_at" JNull ;;
    via <- py_get ticket "via" JNull ;;
    custom_fields <- py_get ticket "custom_fields" (JList []) ;;
    Ok (ZendeskTicketChunk.mk "zendesk" (py_str id) subject description type
          priority status tags requester_id assignee_id organization_id
          group_id created_at updated_at due_at via custom_fields false).

  (** [ZendeskCommentChunk(...)] of [_generate_comment_chunks]; [ticket_id]
      is the generator's argument, already a str. *)
Definition comment_chunk (ticket_id : string) (comment : json)
    : result ZendeskCommentChunk.t :=
    id <- py_getitem comment "id" ;;
    author_id <- foreign_key comment "author_id" ;;
    plain_body <- py_get comment "plain_body" JNull ;;
    html_body <- py_get comment "html_body" JNull ;;
    public <- py_get comment "public" (JBool false) ;;
    created_at <- py_get comment "created_at" JNull ;;
    attachments <- py_get comment "attachments" (JList []) ;;
    Ok (ZendeskCommentChunk.mk "zendesk" (py_str id) (py_str (JStr ticket_id))
          author_id plain_body html_body public created_at attachments false).
End Builders.

(** ** The remote service and the generator monad *)

(** An [httpx.Response], as far as the source looks at it: the status
    code, and the decoded body ([None] when the body is not JSON). *)
Record Response : Type := {
  status_code : Z;
  content : option json
}.

(** What [client.get] comes back with: a response, or a transport failure
    (no connection, unusable URL). *)
Inductive reply : Type :=
| Reply (r : Response)
| ConnectError.

(** A GET as issued: the URL and the [Authorization] header. *)
Record request : Type := {
  url : string;
  authorization : string
}.

(** The state threaded through a run: the replies the remote still has to
    give (one per GET, in order), the requests issued so far and the chunks
    yielded so far, both oldest first. *)
Record world : Type := {
  script : list reply;
  requests : list request;
  emitted : list BaseChunk
}.

Definition initial (replies : list reply) : world :=
  {| script := replies; requests := []; emitted := [] |}.

(** How a coroutine leaves: it returns, it raises, it is still suspended in
    a GET the script has no reply for, or its loop was cut by the fuel. *)
Inductive outcome (A : Type) : Type :=
| Returned (a : A)
| Raised (e : exn)
| Awaiting
| Spinning.
Arguments Returned {A} a.
Arguments Raised {A} e.
Arguments Awaiting {A}.
Arguments Spinning {A}.

Definition M (A : Type) : Type := world -> outcome A * world.

Definition ret {A} (a : A) : M A := fun w => (Returned a, w).

Definition bind {A B} (m : M A) (f : A -> M B) : M B := fun w =>
  match m w with
  | (Returned a, w') => f a w'
  | (Raised e, w') => (Raised e, w')
  | (Awaiting, w') => (Awaiting, w')
  | (Spinning, w') => (Spinning, w')
  end.

Definition raise {A} (e : exn) : M A := fun w => (Raised e, w).

(** A pure expression inside a coroutine. *)
Definition lift {A} (r : result A) : M A :=
  match r with
  | Ok a => ret a
  | Err e => raise e
  end.

Declare Scope gen_scope.
Delimit Scope gen_scope with gen.
Notation "x <- c ;; k" := (bind c (fun x => k))
  (at level 61, c at next level, right associativity) : gen_scope.
Notation "c ;; k" := (bind c (fun _ => k))
  (at level 61, right associativity) : gen_scope.
Local Open Scope gen_scope.

(** [yield chunk] of the outermost generator: the chunk reaches the
    consumer. *)
Definition emit (c : BaseChunk) : M unit := fun w =>
  (Returned tt,
   {| script := script w; requests := requests w; emitted := (emitted w ++ [c])%list |}).

(** [for x in items: body(x)] *)
Fixpoint for_in {A} (items : list A) (body : A -> M unit) : M unit :=
  match items with
  | [] => ret tt
  | x :: rest => body x ;; for_in rest body
  end.

(** [while url: url = body(url)] *)
Fixpoint while_url (fuel : nat) (url : json) (body : json -> M json) : M unit :=
  if truthy url then
    match fuel with
    | O => fun w => (Spinning, w)
    | S fuel' => url' <- body url ;; while_url fuel' url' body
    end
  else ret tt.

(** *** httpx *)

Inductive AsyncClient : Type := httpx_AsyncClient.

(** [await client.get(url, headers=headers)]: httpx takes a str for the
    URL and raises [TypeError] on anything else before sending; a request
    that is sent is logged and answered by the next reply of the script. *)
Definition client_get (client : AsyncClient) (url : json) (auth : string) : M Response :=
  match url with
  | JStr u => fun w =>
      let sent := (requests w ++ [{| url := u; authorization := auth |}])%list in
      match script w with
      | [] => (Awaiting, {| script := []; requests := sent; emitted := emitted w |})
      | Reply r :: rest =>
          (Returned r, {| script := rest; requests := sent; emitted := emitted w |})
      | ConnectError :: rest =>
          (Raised RequestError, {| script := rest; requests := sent; emitted := emitted w |})
      end
  | _ => raise TypeError
  end.

Definition is_success (code : Z) : bool := (200 <=? code) && (code <=? 299).

(** [response.raise_for_status()] *)
Definition raise_for_status (response : Response) : M unit :=
  if is_success (status_code response) then ret tt
  else raise (HTTPStatusError (status_code response)).

(** [response.json()] *)
Definition response_json (response : Response) : M json :=
  match content response with
  | Some v => ret v
  | None => raise JSONDecodeError
  end.

(** ** ZendeskSource *)

Record ZendeskSource : Type := {
  access_token : string
}.

(** [ZendeskSource.create] *)
Definition create (token : string) : ZendeskSource := {| access_token := token |}.

Definition _get_with_auth (self : ZendeskSource) (client : AsyncClient) (url : json)
  : M json :=
  let headers := "Bearer " ++ access_token self in
  response <- client_get client url headers ;;
  raise_for_status response ;;
  response_json response.

(** The body of the [while url:] loop of [_generate_organization_chunks]:
    one page, and the [url] for the next turn. *)
Definition organizations_page (self : ZendeskSource) (client : AsyncClient)
    (yield_ : ZendeskOrganizationChunk.t -> M unit) (url : json) : M json :=
  data <- _get_with_auth self client url ;;
  records <- lift (py_get data "organizations" (JList [])) ;;
  items <- lift (py_iter records) ;;
  for_in items (fun org => c <- lift (organization_chunk org) ;; yield_ c) ;;
  lift (py_get data "next_page" JNull).

Definition _generate_organization_chunks (self : ZendeskSource) (fuel : nat)
    (client : AsyncClient) (yield_ : ZendeskOrganizationChunk.t -> M unit) : M unit :=
  let url := JStr "https://your_subdomain.zendesk.com/api/v2/organizations.json" in
  while_url fuel url (organizations_page self client yield_).

Definition users_page (self : ZendeskSource) (client : AsyncClient)
    (yield_ : ZendeskUserChunk.t -> M unit) (url : json) : M json :=
  data <- _get_with_auth self client url ;;
  records <- lift (py_get data "users" (JList [])) ;;
  items <- lift (py_iter records) ;;
  for_in items (fun user => c <- lift (user_chunk user) ;; yield_ c) ;;
  lift (py_get data "next_page" JNull).

Definition _generate_user_chunks (self : ZendeskSource) (fuel : nat)
    (client : AsyncClient) (yield_ : ZendeskUserChunk.t -> M unit) : M unit :=
  let url := JStr "https://your_subdomain.zendesk.com/api/v2/users.json" in
  while_url fuel url (users_page self client yield_).

Definition tickets_page (self : ZendeskSource) (client : AsyncClient)
    (yield_ : ZendeskTicketChunk.t -> M unit) (url : json) : M json :=
  data <- _get_with_auth self client url ;;
  records <- lift (py_get data "tickets" (JList [])) ;;
  items <- lift (py_iter records) ;;
  for_in items (fun ticket => c <- lift (ticket_chunk ticket) ;; yield_ c) ;;
  lift (py_get data "next_page" JNull).

Definition _generate_ticket_chunks (self : ZendeskSource) (fuel : nat)
    (client : AsyncClient) (yield_ : ZendeskTicketChunk.t -> M unit) : M unit :=
  let url := JStr "https://your_subdomain.zendesk.com/api/v2/tickets.json" in
  while_url fuel url (tickets_page self client yield_).

Definition comments_page (self : ZendeskSource) (client : AsyncClient)
    (ticket_id : string) (yield_ : ZendeskCommentChunk.t -> M unit) (url : json)
  : M json :=
  data <- _get_with_auth self client url ;;
  records <- lift (py_get data "comments" (JList [])) ;;
  items <- lift (py_iter records) ;;
  for_in items (fun comment => c <- lift (comment_chunk ticket_id comment) ;; yield_ c) ;;
  lift (py_get data "next_page" JNull).

Definition _generate_comment_chunks (self : ZendeskSource) (fuel : nat)
    (client : AsyncClient) (ticket_id : string)
    (yield_ : ZendeskCommentChunk.t -> M unit) : M unit :=
  let url :=
    JStr ("https://your_subdomain.zendesk.com/api/v2/tickets/" ++ ticket_id
          ++ "/comments.json") in
  while_url fuel url (comments_page self client ticket_id yield_).

(** [generate_chunks]: each [async for x in g(...): body] passes [body] to
    the generator. *)
Definition generate_chunks (self : ZendeskSource) (fuel : nat) : M unit :=
  let client := httpx_AsyncClient in
  _generate_organization_chunks self fuel client
    (fun org_chunk => emit (OrganizationChunk org_chunk)) ;;
  _generate_user_chunks self fuel client
    (fun user_chunk => emit (UserChunk user_chunk)) ;;
  _generate_ticket_chunks self fuel client
    (fun ticket_chunk =>
       emit (TicketChunk ticket_chunk) ;;
       _generate_comment_chunks self fuel client
         (ZendeskTicketChunk.entity_id ticket_chunk)
         (fun comment_chunk => emit (CommentChunk comment_chunk))).

(** A full run against a script of replies. *)
Definition run (self : ZendeskSource) (fuel : nat) (replies : list reply)
  : outcome unit * world :=
  generate_chunks self fuel (initial replies).

(** ** The pagination loop shared by the four generators *)

(** The four loop bodies differ in the record array they read and in the
    chunk they build; [paginate] is their common text. *)
Definition paginate {C : Type} (self : ZendeskSource) (client : AsyncClient)
    (key : string) (build : json -> result C) (yield_ : C -> M unit) (url : json)
  : M json :=
  data <- _get_with_auth self client url ;;
  records <- lift (py_get data key (JList [])) ;;
  items <- lift (py_iter records) ;;
  for_in items (fun record => c <- lift (build record) ;; yield_ c) ;;
  lift (py_get data "next_page" JNull).

Local Open Scope list_scope.

(** ** Vocabulary of the statements *)

(** [d.get(key, default)] on a dict. *)
Definition get_or (d : list (string * json)) (key : string) (default : json) : json :=
  match dict_get key d with
  | Some x => x
  | None => default
  end.

(** [str(d.get(key, "")) or None] on a dict. *)
Definition fk (d : list (string * json)) (key : string) : option string :=
  or_None (py_str (get_or d key (JStr EmptyString))).

(** The rule a foreign-key field follows, for the dict [d] of the record:
    absent gives [None], an integer gives its decimal text. *)
Definition absent_or_integer (d : list (string * json)) (key : string)
    (field : option string) : Prop :=
  (dict_get key d = None -> field = None) /\
  (forall n : Z, dict_get key d = Some (JInt n) -> field = Some (str_of_int n)) /\
  (dict_get key d = Some (JInt 0) -> field = Some "0"%string).

(** *** What a coroutine adds to the chunk stream *)

(** [yields P m]: from any world, [m] leaves the chunks yielded so far in
    place and appends a list satisfying [P], however it ends. *)
Definition yields {A : Type} (P : list BaseChunk -> Prop) (m : M A) : Prop :=
  forall w, exists out, emitted (snd (m w)) = emitted w ++ out /\ P out.

(** A list of [P] followed by a list of [Q]. *)
Definition followed_by (P Q : list BaseChunk -> Prop) (l : list BaseChunk) : Prop :=
  exists a b, l = a ++ b /\ P a /\ Q b.

(** A property of chunk lists kept by concatenation. *)
Definition segmental (P : list BaseChunk -> Prop) : Prop :=
  P [] /\ forall a b, P a -> P b -> P (a ++ b).

Definition is_organization (c : BaseChunk) : bool :=
  match c with OrganizationChunk _ => true | _ => false end.

Definition is_user (c : BaseChunk) : bool :=
  match c with UserChunk _ => true | _ => false end.

Definition is_ticket (c : BaseChunk) : bool :=
  match c with TicketChunk _ => true | _ => false end.

Definition is_comment (c : BaseChunk) : bool :=
  match c with CommentChunk _ => true | _ => false end.

(** A comment chunk that names the ticket chunk [t]. *)
Definition comment_of (t : ZendeskTicketChunk.t) (c : BaseChunk) : Prop :=
  match c with
  | CommentChunk m => ZendeskCommentChunk.ticket_id m = ZendeskTicketChunk.entity_id t
  | _ => False
  end.

(** A run of blocks, each a ticket chunk and then comment chunks of that
    ticket only. *)
Inductive ticket_blocks : list BaseChunk -> Prop :=
| blocks_nil : ticket_blocks []
| blocks_cons (t : ZendeskTicketChunk.t) (comments rest : list BaseChunk) :
    Forall (comment_of t) comments ->
    ticket_blocks rest ->
    ticket_blocks (TicketChunk t :: comments ++ rest).

(** One block. *)
Definition ticket_block (t : ZendeskTicketChunk.t) (l : list BaseChunk) : Prop :=
  exists comments, l = TicketChunk t :: comments /\ Forall (comment_of t) comments.

(** The chunk [c] is what its generator builds from [record]. *)
Definition chunk_of_record (record : json) (c : BaseChunk) : Prop :=
  match c with
  | OrganizationChunk o => organization_chunk record = Ok o
  | UserChunk u => user_chunk record = Ok u
  | TicketChunk t => ticket_chunk record = Ok t
  | CommentChunk m => exists ticket_id, comment_chunk ticket_id record = Ok m
  end.

(** Every comment chunk of the list names the ticket chunk last seen
    before it ([last] for those before the first ticket chunk). *)
Fixpoint linked (last : option string) (l : list BaseChunk) : Prop :=
  match l with
  | [] => True
  | TicketChunk t :: rest => linked (Some (ZendeskTicketChunk.entity_id t)) rest
  | CommentChunk m :: rest =>
      last = Some (ZendeskCommentChunk.ticket_id m) /\ linked last rest
  | _ :: rest => linked last rest
  end.

(** The body of the [async for] over the tickets in [generate_chunks]. *)
Definition ticket_and_comments (self : ZendeskSource) (fuel : nat)
    (client : AsyncClient) (ticket_chunk : ZendeskTicketChunk.t) : M unit :=
  (emit (TicketChunk ticket_chunk) ;;
   _generate_comment_chunks self fuel client
     (ZendeskTicketChunk.entity_id ticket_chunk)
     (fun comment_chunk => emit (CommentChunk comment_chunk)))%gen.

(** The world once the GET of [u] has been sent and answered, [rest] being
    the replies still to come. *)
Definition sent (self : ZendeskSource) (u : string) (w : world) (rest : list reply)
  : world :=
  {| script := rest;
     requests := requests w ++ [{| url := u;
                                   authorization := ("Bearer " ++ access_token self)%string |}];
     emitted := emitted w |}.

(** The end of a [while url:] loop whose last turn ended as [r]: the value
    a returning turn computed is the falsy [url] that stops the loop. *)
Definition stops (r : outcome json * world) : outcome unit * world :=
  match r with
  | (Returned _, w) => (Returned tt, w)
  | (Raised e, w) => (Raised e, w)
  | (Awaiting, w) => (Awaiting, w)
  | (Spinning, w) => (Spinning, w)
  end.

(** *** Data for the examples *)

(** A page that arrives with status 200 and the dict [fields] as body. *)
Definition page_reply (fields : list (string * json)) : reply :=
  Reply {| status_code := 200; content := Some (JObj fields) |}.

Definition record_of_id (n : Z) : json := JObj [("id"%string, JInt n)].

Definition organizations_url : string :=
  "https://your_subdomain.zendesk.com/api/v2/organizations.json".

(** *** Progress of a coroutine through the script *)

(** With fewer than [n] replies left, [m] is not cut by the fuel, and it
    leaves no more replies than it found. *)
Definition settles {A : Type} (n : nat) (m : M A) : Prop :=
  forall w, (List.length (script w) < n)%nat ->
            fst (m w) <> Spinning /\
            (List.length (script (snd (m w))) <= List.length (script w))%nat.

(** When [m] returns, it has used up at least one reply. *)
Definition takes_a_reply {A : Type} (n : nat) (m : M A) : Prop :=
  forall w, (List.length (script w) < n)%nat ->
            forall a, fst (m w) = Returned a ->
                      (List.length (script (snd (m w))) < List.length (script w))%nat.

(** Two organizations on two pages: the first page links to the second,
    the second has a null [next_page]. *)
Definition two_organization_pages : list reply :=
  [page_reply [("organizations", JList [record_of_id 1]);
               ("next_page", JStr "https://your_subdomain.zendesk.com/page2")]%string;
   page_reply [("organizations", JList [record_of_id 2]);
               ("next_page", JNull)]%string].

Definition organization_of_id (id : string) : BaseChunk :=
  OrganizationChunk
    (ZendeskOrganizationChunk.mk "zendesk" id JNull (JList []) JNull JNull JNull JNull
       JNull (JBool false) (JBool false) JNull false).

(** *** Runs against a longer script *)

Definition with_script (w : world) (replies : list reply) : world :=
  {| script := replies; requests := requests w; emitted := emitted w |}.

(** How [m] behaves when the remote has more to say.  A coroutine that
    ended without waiting for a reply ends the same way, the further
    replies left over.  One left waiting in a GET, when the reply it waits
    for comes with a status that is not a success, raises
    [HTTPStatusError] from the state it was waiting in. *)
Definition extensible {A : Type} (m : M A) : Prop :=
  forall (w : world) (more : list reply),
    match m w with
    | (Awaiting, w') =>
        forall r, is_success (status_code r) = false ->
                  m (with_script w (script w ++ Reply r :: more)) =
                  (Raised (HTTPStatusError (status_code r)), with_script w' more)
    | (o, w') =>
        m (with_script w (script w ++ more)) = (o, with_script w' (script w' ++ more))
    end.

Definition ticket_of_id (id : string) : ZendeskTicketChunk.t :=
  ZendeskTicketChunk.mk "zendesk" id JNull JNull JNull JNull JNull (JList []) None None None
    None JNull JNull JNull JNull (JList []) false.

Definition comment_of_id (id ticket_id : string) : ZendeskCommentChunk.t :=
  ZendeskCommentChunk.mk "zendesk" id ticket_id None JNull JNull (JBool false) JNull
    (JList []) false.

(** No organization, no user, tickets 42 and 43; ticket 42 has three
    comments on two pages, ticket 43 has none. *)
Definition ticket_42_replies : list reply :=
  [page_reply [];
   page_reply [];
   page_reply [("tickets", JList [record_of_id 42; record_of_id 43])]%string;
   page_reply [("comments", JList [record_of_id 100; record_of_id 101]);
               ("next_page", JStr "https://your_subdomain.zendesk.com/comments2")]%string;
   page_reply [("comments", JList [record_of_id 102])]%string;
   page_reply []].

Definition forbidden : Response := {| status_code := 403; content := None |}.

(** *** Two runs side by side *)

(** Two worlds that differ at most in the [Authorization] header of the
    requests sent. *)
Definition same_remote (w1 w2 : world) : Prop :=
  script w1 = script w2 /\
  emitted w1 = emitted w2 /\
  map url (requests w1) = map url (requests w2).

(** From such worlds, with fewer than [n] replies left, [m1] and [m2] end
    the same way and leave such worlds. *)
Definition agree {A : Type} (n : nat) (m1 m2 : M A) : Prop :=
  forall w1 w2,
    same_remote w1 w2 ->
    (List.length (script w1) < n)%nat ->
    fst (m1 w1) = fst (m2 w2) /\ same_remote (snd (m1 w1)) (snd (m2 w2)).

(** *** The four loops at once *)

(** [P key page] holds of the loop body of each generator, [key] being
    the record array that body reads. *)
Definition each_page (self : ZendeskSource) (client : AsyncClient)
    (P : string -> (json -> M json) -> Prop) : Prop :=
  (forall yield_, P "organizations"%string (organizations_page self client yield_)) /\
  (forall yield_, P "users"%string (users_page self client yield_)) /\
  (forall yield_, P "tickets"%string (tickets_page self client yield_)) /\
  (forall ticket_id yield_, P "comments"%string (comments_page self client ticket_id yield_)).

(** *** Invariants of the world *)

(** The ways a coroutine ends without returning. *)
Inductive halt : Type :=
| Raises (e : exn)
| Awaits
| Spins.

(** [triple P m Q H]: from a world satisfying [P], [m] returns in a world
    satisfying [Q], or ends otherwise, as [h], in a world satisfying
    [H h]. *)
Definition triple {A : Type} (P : world -> Prop) (m : M A) (Q : world -> Prop)
    (H : halt -> world -> Prop) : Prop :=
  forall w, P w ->
    match m w with
    | (Returned _, w') => Q w'
    | (Raised e, w') => H (Raises e) w'
    | (Awaiting, w') => H Awaits w'
    | (Spinning, w') => H Spins w'
    end.

(** Every request sent carries the bearer token of the instance. *)
Definition authorized (self : ZendeskSource) (w : world) : Prop :=
  Forall (fun rq => authorization rq = ("Bearer " ++ access_token self)%string) (requests w).

(** The first request sent is [first]. *)
Definition begins_with (first : request) (w : world) : Prop :=
  exists later, requests w = first :: later.

(** The URL [_generate_comment_chunks] starts from. *)
Definition comments_url (ticket_id : string) : string :=
  ("https://your_subdomain.zendesk.com/api/v2/tickets/" ++ ticket_id ++ "/comments.json")%string.

(** The comments of every ticket chunk yielded have been asked for, but
    perhaps those of the tickets whose id is [excepted]. *)
Definition comments_requested (excepted : option string) (w : world) : Prop :=
  forall t, In (TicketChunk t) (emitted w) ->
            excepted = Some (ZendeskTicketChunk.entity_id t) \/
            In (comments_url (ZendeskTicketChunk.entity_id t)) (map url (requests w)).

(** *** A walk over linked pages *)

(** [walked key build u pages urls chunks]: the bodies [pages], read from
    the URL [u] on, form one walk.  Each body holds under [key] records
    that all make a chunk; each body but the last names in [next_page]
    the non-empty URL of its successor, the last has a falsy [next_page].
    [urls] are the URLs of the pages and [chunks] the chunks of their
    records, both in order. *)
Inductive walked {C : Type} (key : string) (build : json -> result C)
  : string -> list (list (string * json)) -> list string -> list C -> Prop :=
| walked_last (u : string) (body : list (string * json)) (items : list json)
    (chunks : list C) :
    py_iter (get_or body key (JList [])) = Ok items ->
    Forall2 (fun record c => build record = Ok c) items chunks ->
    truthy (get_or body "next_page" JNull) = false ->
    walked key build u [body] [u] chunks
| walked_next (u : string) (body : list (string * json)) (items : list json)
    (chunks : list C) (next : string) (more : list (list (string * json)))
    (urls : list string) (chunks' : list C) :
    py_iter (get_or body key (JList [])) = Ok items ->
    Forall2 (fun record c => build record = Ok c) items chunks ->
    get_or body "next_page" JNull = JStr next ->
    truthy (JStr next) = true ->
    walked key build next more urls chunks' ->
    walked key build u (body :: more) (u :: urls) (chunks ++ chunks').

(** The requests of a walk. *)
Definition gets (self : ZendeskSource) (urls : list string) : list request :=
  map (fun u => {| url := u; authorization := ("Bearer " ++ access_token self)%string |}) urls.

(** *** Replies that come later *)

(** [fatal bad e m]: as [extensible], for a coroutine waiting in a GET
    that is answered by [bad]: it raises [e] from the state it was
    waiting in. *)
Definition fatal {A : Type} (bad : reply) (e : exn) (m : M A) : Prop :=
  forall (w : world) (more : list reply),
    match m w with
    | (Awaiting, w') =>
        m (with_script w (script w ++ bad :: more)) = (Raised e, with_script w' more)
    | (o, w') =>
        m (with_script w (script w ++ more)) = (o, with_script w' (script w' ++ more))
    end.

(** *** Where a chunk comes from *)

(** The record array a chunk of each kind is read from. *)
Definition record_key (c : BaseChunk) : string :=
  match c with
  | OrganizationChunk _ => "organizations"%string
  | UserChunk _ => "users"%string
  | TicketChunk _ => "tickets"%string
  | CommentChunk _ => "comments"%string
  end.

(** [record] is an element of the record array [key] of a page that the
    remote gave, with a success status, among [replies]. *)
Definition served_record (replies : list reply) (key : string) (record : json) : Prop :=
  exists r data items,
    In (Reply r) replies /\
    is_success (status_code r) = true /\
    content r = Some (JObj data) /\
    py_iter (get_or data key (JList [])) = Ok items /\
    In record items.

(** The tags the chunk [c] has from the record [record]: the platform
    name, the [archived] placeholder, and for [entity_id] the [str] of
    [record["id"]], which is the decimal text of an integer id. *)
Definition tagged_from (record : json) (c : BaseChunk) : Prop :=
  source_name c = "zendesk"%string /\
  archived c = false /\
  exists id,
    py_getitem record "id" = Ok id /\
    entity_id c = py_str id /\
    (forall n, id = JInt n -> entity_id c = str_of_int n).

(** The chunk [c] was built from a record of its kind that the remote
    gave among [replies], and has its tags from that record. *)
Definition built_from_replies (replies : list reply) (c : BaseChunk) : Prop :=
  exists record,
    served_record replies (record_key c) record /\
    chunk_of_record record c /\
    tagged_from record c.

(** The replies a run has left are the last of those it was given, and
    every chunk yielded so far was built from a record given. *)
Definition traceable (replies : list reply) (w : world) : Prop :=
  (exists used, replies = used ++ script w) /\
  Forall (built_from_replies replies) (emitted w).

(** *** Where a loop is *)

Definition users_url : string := "https://your_subdomain.zendesk.com/api/v2/users.json".

Definition tickets_url : string := "https://your_subdomain.zendesk.com/api/v2/tickets.json".

(** [arrives body fuel u w fuel' u' w']: the loop [while_url fuel u body]
    started in the world [w] comes, after turns that all return, to the
    turn for [u'] in the world [w'], with [fuel'] left. *)
Inductive arrives (body : json -> M json)
  : nat -> json -> world -> nat -> json -> world -> Prop :=
| arrives_now (fuel : nat) (u : json) (w : world) : arrives body fuel u w fuel u w
| arrives_later (fuel : nat) (u : json) (w : world) (v : json) (w1 : world)
    (fuel' : nat) (u' : json) (w' : world) :
    truthy u = true ->
    body u w = (Returned v, w1) ->
    arrives body fuel v w1 fuel' u' w' ->
    arrives body (S fuel) u w fuel' u' w'.

(** The turn of a loop that fetches [u] in the world [w] is given a page
    whose record array [key] holds [record]; the records before it have
    been handled, which leaves the world [w_a], and [record] is next. *)
Definition at_record {C : Type} (self : ZendeskSource) (key : string)
    (build : json -> result C) (consumer : C -> M unit)
    (w : world) (u : string) (record : json) (w_a : world) : Prop :=
  truthy (JStr u) = true /\
  exists r rest data before after,
    script w = Reply r :: rest /\
    is_success (status_code r) = true /\
    content r = Some (JObj data) /\
    dict_get key data = Some (JList (before ++ record :: after)) /\
    for_in before (fun x => c <- lift (build x) ;; consumer c)%gen (sent self u w rest)
    = (Returned tt, w_a).

(** The generator that reads [key] from [start] on, started in the world
    [w0], comes to [record] in the world [w_a]. *)
Definition reaches_record {C : Type} (self : ZendeskSource) (client : AsyncClient)
    (key : string) (build : json -> result C) (consumer : C -> M unit)
    (fuel : nat) (start : string) (w0 : world) (record : json) (w_a : world) : Prop :=
  exists f u w,
    arrives (paginate self client key build consumer) fuel (JStr start) w0 (S f) (JStr u) w /\
    at_record self key build consumer w u record w_a.

(** An organization without id between two that have one; and a ticket
    whose second comment has no id. *)
Definition replies_with_unnamed_organization : list reply :=
  [page_reply [("organizations",
                JList [record_of_id 1; JObj [("name", JStr "acme")]; record_of_id 3])]%string;
   page_reply []].

Definition replies_with_unnamed_comment : list reply :=
  [page_reply [];
   page_reply [];
   page_reply [("tickets", JList [record_of_id 42])]%string;
   page_reply [("comments",
                JList [record_of_id 100; JObj [("name", JStr "acme")]; record_of_id 102])]%string;
   page_reply []].

(** *** A remote that serves every listing to the end *)

(** [records_served items script stream]: for the ticket records [items],
    in order, [script] holds for each ticket the pages of one walk over
    its comments, and [stream] has for each ticket its chunk followed by
    the chunks of all the comments of that walk. *)
Inductive records_served : list json -> list reply -> list BaseChunk -> Prop :=
| records_served_nil : records_served [] [] []
| records_served_cons (record : json) (t : ZendeskTicketChunk.t)
    (pages : list (list (string * json))) (urls : list string)
    (comments : list ZendeskCommentChunk.t)
    (items : list json) (script : list reply) (stream : list BaseChunk) :
    ticket_chunk record = Ok t ->
    walked "comments" (comment_chunk (ZendeskTicketChunk.entity_id t))
      (comments_url (ZendeskTicketChunk.entity_id t)) pages urls comments ->
    records_served items script stream ->
    records_served (record :: items)
      (map page_reply pages ++ script)
      (TicketChunk t :: map CommentChunk comments ++ stream).

(** [tickets_served script stream]: [script] holds the pages of one walk
    over the tickets, each page followed by what serves its records, the
    next page being fetched once they are done; [stream] is what is
    yielded, page after page. *)
Inductive tickets_served : list reply -> list BaseChunk -> Prop :=
| tickets_served_last (body : list (string * json)) (items : list json)
    (script : list reply) (stream : list BaseChunk) :
    py_iter (get_or body "tickets" (JList [])) = Ok items ->
    records_served items script stream ->
    truthy (get_or body "next_page" JNull) = false ->
    tickets_served (page_reply body :: script) stream
| tickets_served_next (body : list (string * json)) (items : list json)
    (script : list reply) (stream : list BaseChunk) (next : string)
    (more : list reply) (stream' : list BaseChunk) :
    py_iter (get_or body "tickets" (JList [])) = Ok items ->
    records_served items script stream ->
    get_or body "next_page" JNull = JStr next ->
    truthy (JStr next) = true ->
    tickets_served more stream' ->
    tickets_served (page_reply body :: script ++ more) (stream ++ stream').

(** * Properties *)

(** ** The loop bodies are instances of [paginate] *)

Lemma organizations_page_paginate self client yield_ :
  organizations_page self client yield_
  = paginate self client "organizations" organization_chunk yield_.
Proof. reflexivity. Qed.

Lemma users_page_paginate self client yield_ :
  users_page self client yield_ = paginate self client "users" user_chunk yield_.
Proof. reflexivity. Qed.

Lemma tickets_page_paginate self client yield_ :
  tickets_page self client yield_ = paginate self client "tickets" ticket_chunk yield_.
Proof. reflexivity. Qed.

Lemma comments_page_paginate self client ticket_id yield_ :
  comments_page self client ticket_id yield_
  = paginate self client "comments" (comment_chunk ticket_id) yield_.
Proof. reflexivity. Qed.

(** ** Records and the chunks built from them *)

Lemma py_get_obj d key default : py_get (JObj d) key default = Ok (get_or d key default).
Proof. unfold py_get, get_or. destruct (dict_get key d); reflexivity. Qed.

Lemma foreign_key_obj d key :
  foreign_key (JObj d) key = Ok (or_None (py_str (get_or d key (JStr EmptyString)))).
Proof. unfold foreign_key. rewrite py_get_obj. reflexivity. Qed.

Ltac builder_obj :=
  cbv beta delta [organization_chunk user_chunk ticket_chunk comment_chunk];
  rewrite ?foreign_key_obj, ?py_get_obj; unfold py_getitem;
  match goal with |- context [dict_get ?k ?d] => destruct (dict_get k d) end;
  reflexivity.

Lemma organization_chunk_obj d :
  organization_chunk (JObj d) =
  match dict_get "id" d with
  | Some id =>
      Ok (ZendeskOrganizationChunk.mk "zendesk" (py_str id) (get_or d "name" JNull)
            (get_or d "domain_names" (JList [])) (get_or d "created_at" JNull)
            (get_or d "updated_at" JNull) (get_or d "details" JNull)
            (get_or d "notes" JNull) (get_or d "group_id" JNull)
            (get_or d "shared_tickets" (JBool false))
            (get_or d "shared_comments" (JBool false))
            (get_or d "external_id" JNull) false)
  | None => Err (KeyError "id")
  end.
Proof. builder_obj. Qed.

Lemma user_chunk_obj d :
  user_chunk (JObj d) =
  match dict_get "id" d with
  | Some id =>
      Ok (ZendeskUserChunk.mk "zendesk" (py_str id) (get_or d "name" JNull)
            (get_or d "email" JNull) (get_or d "role" JNull)
            (get_or d "time_zone" JNull) (get_or d "locale" JNull)
            (get_or d "created_at" JNull) (get_or d "updated_at" JNull)
            (get_or d "suspended" (JBool false)) false)
  | None => Err (KeyError "id")
  end.
Proof. builder_obj. Qed.

Lemma ticket_chunk_obj d :
  ticket_chunk (JObj d) =
  match dict_get "id" d with
  | Some id =>
      Ok (ZendeskTicketChunk.mk "zendesk" (py_str id) (get_or d "subject" JNull)
            (get_or d "description" JNull) (get_or d "type" JNull)
            (get_or d "priority" JNull) (get_or d "status" JNull)
            (get_or d "tags" (JList [])) (fk d "requester_id") (fk d "assignee_id")
            (fk d "organization_id") (fk d "group_id") (get_or d "created_at" JNull)
            (get_or d "updated_at" JNull) (get_or d "due_at" JNull)
            (get_or d "via" JNull) (get_or d "custom_fields" (JList [])) false)
  | None => Err (KeyError "id")
  end.
Proof. builder_obj. Qed.

Lemma comment_chunk_obj ticket_id d :
  comment_chunk ticket_id (JObj d) =
  match dict_get "id" d with
  | Some id =>
      Ok (ZendeskCommentChunk.mk "zendesk" (py_str id) ticket_id (fk d "author_id")
            (get_or d "plain_body" JNull) (get_or d "html_body" JNull)
            (get_or d "public" (JBool false)) (get_or d "created_at" JNull)
            (get_or d "attachments" (JList [])) false)
  | None => Err (KeyError "id")
  end.
Proof. builder_obj. Qed.

(** Only a dict makes a chunk. *)
Lemma py_getitem_Ok record key v :
  py_getitem record key = Ok v -> exists d, record = JObj d /\ dict_get key d = Some v.
Proof.
  destruct record; simpl; try discriminate.
  destruct (dict_get key fields) eqn:E; intros H; inversion H; subst; eauto.
Qed.

Lemma organization_chunk_Ok record c :
  organization_chunk record = Ok c -> exists d, record = JObj d.
Proof. destruct record; try discriminate; eauto. Qed.

Lemma user_chunk_Ok record c : user_chunk record = Ok c -> exists d, record = JObj d.
Proof. destruct record; try discriminate; eauto. Qed.

Lemma ticket_chunk_Ok record c : ticket_chunk record = Ok c -> exists d, record = JObj d.
Proof. destruct record; try discriminate; eauto. Qed.

Lemma comment_chunk_Ok ticket_id record c :
  comment_chunk ticket_id record = Ok c -> exists d, record = JObj d.
Proof. destruct record; try discriminate; eauto. Qed.

(** The decimal text of an integer is never empty. *)
Lemma str_of_int_truthy n : or_None (str_of_int n) = Some (str_of_int n).
Proof.
  unfold or_None, str_of_int, truthy.
  destruct (Z.to_int n) as [u | u]; simpl.
  - destruct u; reflexivity.
  - reflexivity.
Qed.

Lemma fk_absent d key : dict_get key d = None -> fk d key = None.
Proof. unfold fk, get_or. intros ->. reflexivity. Qed.

Lemma fk_int d key n : dict_get key d = Some (JInt n) -> fk d key = Some (str_of_int n).
Proof. unfold fk, get_or. intros ->. apply str_of_int_truthy. Qed.

(** ** Foreign keys and list-valued fields *)

(** C1, as the code has it: a foreign key ([requester_id], [assignee_id],
    [organization_id], [group_id] of a ticket, [author_id] of a comment)
    that is absent from the record becomes [None], not the empty string; one
    that is present with an integer value [n], zero included, becomes the
    decimal text of [n], so that [0] becomes the str ["0"]. *)
Theorem foreign_keys_absent_or_integer :
  forall d : list (string * json),
    (forall t, ticket_chunk (JObj d) = Ok t ->
       absent_or_integer d "requester_id" (ZendeskTicketChunk.requester_id t) /\
       absent_or_integer d "assignee_id" (ZendeskTicketChunk.assignee_id t) /\
       absent_or_integer d "organization_id" (ZendeskTicketChunk.organization_id t) /\
       absent_or_integer d "group_id" (ZendeskTicketChunk.group_id t)) /\
    (forall ticket_id c, comment_chunk ticket_id (JObj d) = Ok c ->
       absent_or_integer d "author_id" (ZendeskCommentChunk.author_id c)).
Proof.
  assert (R : forall d key, absent_or_integer d key (fk d key)).
  { intros d key. repeat split.
    - apply fk_absent.
    - intros n. apply fk_int.
    - intros H0. apply (fk_int d key 0 H0). }
  intros d. split.
  - intros t Ht. rewrite ticket_chunk_obj in Ht.
    destruct (dict_get "id" d); [|discriminate].
    inversion Ht; subst t; simpl. repeat split; apply R.
  - intros tid c Hc. rewrite comment_chunk_obj in Hc.
    destruct (dict_get "id" d); [|discriminate].
    inversion Hc; subst c; simpl. apply R.
Qed.

Lemma foreign_keys_absent_or_integer_witness :
  absent_or_integer [("id", JInt 7); ("assignee_id", JInt 0)]%string "requester_id" None /\
  absent_or_integer [("id", JInt 7); ("assignee_id", JInt 0)]%string "assignee_id"
    (Some "0"%string) /\
  absent_or_integer [("id", JInt 7); ("assignee_id", JInt 0)]%string "author_id" None.
Proof.
  destruct (foreign_keys_absent_or_integer [("id", JInt 7); ("assignee_id", JInt 0)]%string)
    as [Ht Hc].
  destruct (Ht _ eq_refl) as [H1 [H2 _]].
  pose proof (Hc "7"%string _ eq_refl) as H3.
  exact (conj H1 (conj H2 H3)).
Defined.

(** C1 as stated fails on a zero: the ticket record
    [{"id": 7, "requester_id": 0}] gives [requester_id = "0"], not [None]. *)
Lemma zero_foreign_key_is_kept :
  exists t,
    ticket_chunk (JObj [("id", JInt 7); ("requester_id", JInt 0)]%string) = Ok t /\
    dict_get "requester_id" [("id", JInt 7); ("requester_id", JInt 0)]%string = Some (JInt 0) /\
    ZendeskTicketChunk.requester_id t = Some "0"%string /\
    ZendeskTicketChunk.requester_id t <> None.
Proof.
  eexists. split; [reflexivity|]. split; [reflexivity|]. split; [reflexivity|].
  discriminate.
Qed.

(** C7: a record without an optional list-valued field ([domain_names] of
    an organization, [tags] and [custom_fields] of a ticket, [attachments]
    of a comment) gives a chunk whose field is the empty list. *)
Theorem missing_list_field_is_empty :
  forall d : list (string * json),
    (forall c, organization_chunk (JObj d) = Ok c -> dict_get "domain_names" d = None ->
       ZendeskOrganizationChunk.domain_names c = JList []) /\
    (forall c, ticket_chunk (JObj d) = Ok c -> dict_get "tags" d = None ->
       ZendeskTicketChunk.tags c = JList []) /\
    (forall c, ticket_chunk (JObj d) = Ok c -> dict_get "custom_fields" d = None ->
       ZendeskTicketChunk.custom_fields c = JList []) /\
    (forall ticket_id c, comment_chunk ticket_id (JObj d) = Ok c ->
       dict_get "attachments" d = None ->
       ZendeskCommentChunk.attachments c = JList []).
Proof.
  intros d. repeat split.
  - intros c Hc Hk. rewrite organization_chunk_obj in Hc.
    destruct (dict_get "id" d); [|discriminate].
    inversion Hc; subst c; simpl. unfold get_or. now rewrite Hk.
  - intros c Hc Hk. rewrite ticket_chunk_obj in Hc.
    destruct (dict_get "id" d); [|discriminate].
    inversion Hc; subst c; simpl. unfold get_or. now rewrite Hk.
  - intros c Hc Hk. rewrite ticket_chunk_obj in Hc.
    destruct (dict_get "id" d); [|discriminate].
    inversion Hc; subst c; simpl. unfold get_or. now rewrite Hk.
  - intros tid c Hc Hk. rewrite comment_chunk_obj in Hc.
    destruct (dict_get "id" d); [|discriminate].
    inversion Hc; subst c; simpl. unfold get_or. now rewrite Hk.
Qed.

Lemma missing_list_field_is_empty_witness :
  exists o t m,
    organization_chunk (JObj [("id", JInt 3)]%string) = Ok o /\
    ticket_chunk (JObj [("id", JInt 3)]%string) = Ok t /\
    comment_chunk "9" (JObj [("id", JInt 3)]%string) = Ok m /\
    ZendeskOrganizationChunk.domain_names o = JList [] /\
    ZendeskTicketChunk.tags t = JList [] /\
    ZendeskTicketChunk.custom_fields t = JList [] /\
    ZendeskCommentChunk.attachments m = JList [].
Proof.
  destruct (missing_list_field_is_empty [("id", JInt 3)]%string) as [Ho [Ht [Hf Hm]]].
  eexists; eexists; eexists.
  split; [reflexivity|]. split; [reflexivity|]. split; [reflexivity|].
  split; [apply Ho; reflexivity|]. split; [apply Ht; reflexivity|].
  split; [apply Hf; reflexivity|]. apply (Hm "9"%string); reflexivity.
Defined.

(** ** The chunk stream of a coroutine *)

Lemma yields_weaken {A} (P Q : list BaseChunk -> Prop) (m : M A) :
  (forall l, P l -> Q l) -> yields P m -> yields Q m.
Proof.
  intros HPQ Hm w. destruct (Hm w) as [out [E HP]]. exists out. auto.
Qed.

Lemma yields_silent {A} (P : list BaseChunk -> Prop) (m : M A) :
  P [] -> (forall w, emitted (snd (m w)) = emitted w) -> yields P m.
Proof.
  intros HP Hm w. exists []. rewrite app_nil_r. auto.
Qed.

Lemma yields_ret {A} (P : list BaseChunk -> Prop) (a : A) : P [] -> yields P (ret a).
Proof. intros HP. apply yields_silent; auto. Qed.

Lemma yields_raise {A} (P : list BaseChunk -> Prop) (e : exn) :
  P [] -> yields P (@raise A e).
Proof. intros HP. apply yields_silent; auto. Qed.

Lemma yields_lift {A} (P : list BaseChunk -> Prop) (r : result A) :
  P [] -> yields P (lift r).
Proof. intros HP. destruct r; [apply yields_ret | apply yields_raise]; auto. Qed.

Section Yields.
Context {A B : Type}.
Implicit Types P Q : list BaseChunk -> Prop.

Lemma yields_bind P Q (m : M A) (f : A -> M B) :
  yields P m -> (forall a, yields Q (f a)) -> Q [] ->
  yields (followed_by P Q) (bind m f).
Proof.
  intros Hm Hf HQ w. unfold bind.
  destruct (Hm w) as [o1 [E1 H1]].
  destruct (m w) as [[a | e | | ] w1]; simpl in E1.
  - destruct (Hf a w1) as [o2 [E2 H2]].
    exists (o1 ++ o2). rewrite E2, E1, app_assoc. split; [reflexivity|].
    exists o1, o2. auto.
  - exists o1. split; [assumption|]. exists o1, []. rewrite app_nil_r. auto.
  - exists o1. split; [assumption|]. exists o1, []. rewrite app_nil_r. auto.
  - exists o1. split; [assumption|]. exists o1, []. rewrite app_nil_r. auto.
Qed.

Lemma yields_seq P (m : M A) (f : A -> M B) :
  segmental P -> yields P m -> (forall a, yields P (f a)) -> yields P (bind m f).
Proof.
  intros [P0 Papp] Hm Hf.
  apply yields_weaken with (P := followed_by P P).
  - intros l [a [b [-> [Ha Hb]]]]. auto.
  - apply yields_bind; auto.
Qed.
End Yields.

Lemma yields_emit (P : list BaseChunk -> Prop) c : P [c] -> yields P (emit c).
Proof. intros HP w. exists [c]. auto. Qed.

Lemma yields_for_in {A} (P : list BaseChunk -> Prop) (items : list A) body :
  segmental P -> (forall x, In x items -> yields P (body x)) -> yields P (for_in items body).
Proof.
  intros HP. induction items as [|x rest IH]; intros Hb; simpl.
  - apply yields_ret. apply HP.
  - apply yields_seq; auto.
    + apply Hb. now left.
    + intros _. apply IH. intros y Hy. apply Hb. now right.
Qed.

Lemma yields_while (P : list BaseChunk -> Prop) fuel url body :
  segmental P -> (forall u, yields P (body u)) -> yields P (while_url fuel url body).
Proof.
  intros HP Hb. revert url. induction fuel as [|fuel IH]; intros url; simpl.
  - destruct (truthy url).
    + apply yields_silent; [apply HP | reflexivity].
    + apply yields_ret. apply HP.
  - destruct (truthy url).
    + apply yields_seq; auto.
    + apply yields_ret. apply HP.
Qed.

Lemma client_get_emitted client url auth w :
  emitted (snd (client_get client url auth w)) = emitted w.
Proof.
  destruct url; try reflexivity. simpl.
  destruct (script w) as [|[r|] rest]; reflexivity.
Qed.

Lemma yields_get_with_auth (P : list BaseChunk -> Prop) self client url :
  segmental P -> yields P (_get_with_auth self client url).
Proof.
  intros HP. unfold _get_with_auth.
  apply yields_seq; auto.
  - apply yields_silent; [apply HP | apply client_get_emitted].
  - intros response. apply yields_seq; auto.
    + unfold raise_for_status. destruct (is_success _).
      * apply yields_ret, HP.
      * apply yields_raise, HP.
    + intros _. unfold response_json. destruct (content response).
      * apply yields_ret, HP.
      * apply yields_raise, HP.
Qed.

(** A page adds what the consumer's body adds for the chunks built. *)
Lemma yields_paginate {C} (P : list BaseChunk -> Prop) self client key
    (build : json -> result C) yield_ url :
  segmental P ->
  (forall record c, build record = Ok c -> yields P (yield_ c)) ->
  yields P (paginate self client key build yield_ url).
Proof.
  intros HP Hy. unfold paginate.
  apply yields_seq; auto using yields_get_with_auth. intros data.
  apply yields_seq; auto. { apply yields_lift, HP. } intros records.
  apply yields_seq; auto. { apply yields_lift, HP. } intros items.
  apply yields_seq; auto.
  - apply yields_for_in; auto. intros record _.
    destruct (build record) as [c | e] eqn:E.
    + change (yields P (yield_ c)). eauto.
    + apply yields_silent; [apply HP | reflexivity].
  - intros _. apply yields_lift, HP.
Qed.

(** ** Shape of the stream of [generate_chunks] *)

Lemma segmental_Forall (Q : BaseChunk -> Prop) : segmental (Forall Q).
Proof.
  split; [constructor|]. intros a b Ha Hb. apply Forall_app; auto.
Qed.

Lemma ticket_blocks_app a b : ticket_blocks a -> ticket_blocks b -> ticket_blocks (a ++ b).
Proof.
  induction 1 as [|t cs rest Hcs Hrest IH]; intros Hb; simpl; [assumption|].
  rewrite <- app_assoc. constructor; auto.
Qed.

Lemma segmental_ticket_blocks : segmental ticket_blocks.
Proof. split; [constructor | apply ticket_blocks_app]. Qed.

Lemma ticket_block_blocks t l : ticket_block t l -> ticket_blocks l.
Proof.
  intros [cs [-> Hcs]]. rewrite <- (app_nil_r cs). constructor; [assumption | constructor].
Qed.

Lemma comment_chunk_ticket_id ticket_id record m :
  comment_chunk ticket_id record = Ok m -> ZendeskCommentChunk.ticket_id m = ticket_id.
Proof.
  intros H. destruct (comment_chunk_Ok _ _ _ H) as [d ->].
  rewrite comment_chunk_obj in H. destruct (dict_get "id" d); [|discriminate].
  inversion H; reflexivity.
Qed.

Lemma generate_chunks_unfold self fuel :
  generate_chunks self fuel =
  (_generate_organization_chunks self fuel httpx_AsyncClient
     (fun org_chunk => emit (OrganizationChunk org_chunk)) ;;
   _generate_user_chunks self fuel httpx_AsyncClient
     (fun user_chunk => emit (UserChunk user_chunk)) ;;
   _generate_ticket_chunks self fuel httpx_AsyncClient
     (ticket_and_comments self fuel httpx_AsyncClient))%gen.
Proof. reflexivity. Qed.

Lemma yields_organizations self fuel client :
  yields (Forall (fun c => is_organization c = true))
    (_generate_organization_chunks self fuel client
       (fun org_chunk => emit (OrganizationChunk org_chunk))).
Proof.
  apply yields_while; [apply segmental_Forall|]. intros u.
  rewrite organizations_page_paginate.
  apply yields_paginate; [apply segmental_Forall|].
  intros record c _. apply yields_emit. repeat constructor.
Qed.

Lemma yields_users self fuel client :
  yields (Forall (fun c => is_user c = true))
    (_generate_user_chunks self fuel client (fun user_chunk => emit (UserChunk user_chunk))).
Proof.
  apply yields_while; [apply segmental_Forall|]. intros u.
  rewrite users_page_paginate.
  apply yields_paginate; [apply segmental_Forall|].
  intros record c _. apply yields_emit. repeat constructor.
Qed.

Lemma yields_comments self fuel client t :
  yields (Forall (comment_of t))
    (_generate_comment_chunks self fuel client (ZendeskTicketChunk.entity_id t)
       (fun comment_chunk => emit (CommentChunk comment_chunk))).
Proof.
  apply yields_while; [apply segmental_Forall|]. intros u.
  rewrite comments_page_paginate.
  apply yields_paginate; [apply segmental_Forall|].
  intros record c Hc. apply yields_emit. repeat constructor.
  simpl. eapply comment_chunk_ticket_id; eauto.
Qed.

Lemma yields_ticket_and_comments self fuel client t :
  yields (ticket_block t) (ticket_and_comments self fuel client t).
Proof.
  eapply yields_weaken; [| apply yields_bind with
      (P := fun l => l = [TicketChunk t]) (Q := Forall (comment_of t))].
  - intros l [a [b [-> [-> Hb]]]]. exists b. auto.
  - apply yields_emit. reflexivity.
  - intros _. apply yields_comments.
  - constructor.
Qed.

Lemma yields_tickets self fuel client :
  yields ticket_blocks
    (_generate_ticket_chunks self fuel client (ticket_and_comments self fuel client)).
Proof.
  apply yields_while; [apply segmental_ticket_blocks|]. intros u.
  rewrite tickets_page_paginate.
  apply yields_paginate; [apply segmental_ticket_blocks|].
  intros record t _. eapply yields_weaken; [apply ticket_block_blocks|].
  apply yields_ticket_and_comments.
Qed.

(** Organizations, then users, then ticket blocks: the order of the whole
    stream, however the run ends. *)
Lemma generate_chunks_stream self fuel :
  yields
    (followed_by (Forall (fun c => is_organization c = true))
       (followed_by (Forall (fun c => is_user c = true)) ticket_blocks))
    (generate_chunks self fuel).
Proof.
  rewrite generate_chunks_unfold.
  apply yields_bind.
  - apply yields_organizations.
  - intros _. apply yields_bind.
    + apply yields_users.
    + intros _. apply yields_tickets.
    + constructor.
  - exists [], []. repeat constructor.
Qed.

(** ** Comments belong to the ticket before them *)

Lemma ticket_blocks_linked l : ticket_blocks l -> forall last, linked last l.
Proof.
  induction 1 as [|t cs rest Hcs Hrest IH]; intros last; simpl; [exact I|].
  induction Hcs as [|c cs Hc Hcs IHcs]; simpl; [apply IH|].
  destruct c; simpl in Hc; try contradiction.
  split; [now rewrite Hc | assumption].
Qed.

Lemma linked_after_others l rest last :
  Forall (fun c => is_ticket c = false /\ is_comment c = false) l ->
  linked last rest -> linked last (l ++ rest).
Proof.
  induction 1 as [|c l [Ht Hc] Hl IH]; intros Hrest; simpl; [assumption|].
  destruct c; simpl in *; try discriminate; auto.
Qed.

Lemma linked_suffix before l last : linked last (before ++ l) -> exists last', linked last' l.
Proof.
  revert last. induction before as [|c before IH]; intros last H; simpl in H; [eauto|].
  destruct c; simpl in H; try (eapply IH; eassumption).
  destruct H as [_ H]. eapply IH; eassumption.
Qed.

Lemma linked_until_next_ticket between after last :
  linked last (between ++ after) ->
  Forall (fun c => is_ticket c = false) between ->
  forall m, In (CommentChunk m) between -> last = Some (ZendeskCommentChunk.ticket_id m).
Proof.
  intros H Hb. induction Hb as [|c between Hc Hb IH]; intros m Hin; [contradiction|].
  destruct Hin as [-> | Hin].
  - simpl in H. tauto.
  - destruct c; simpl in H, Hc; try discriminate; try (apply IH; tauto).
Qed.

Lemma run_linked self fuel replies : linked None (emitted (snd (run self fuel replies))).
Proof.
  destruct (generate_chunks_stream self fuel (initial replies))
    as [out [E [os [rest [-> [Ho [us [ts [-> [Hu Ht]]]]]]]]]].
  unfold run. rewrite E. simpl.
  apply linked_after_others.
  { eapply Forall_impl; [|exact Ho]. intros [] H; simpl in *; auto; discriminate. }
  apply linked_after_others.
  { eapply Forall_impl; [|exact Hu]. intros [] H; simpl in *; auto; discriminate. }
  apply ticket_blocks_linked; assumption.
Qed.

(** C3: in the stream of a run, a comment chunk that comes after a ticket
    chunk and before the next ticket chunk has that ticket chunk's
    [entity_id] as its [ticket_id]. *)
Theorem comments_carry_their_ticket :
  forall (self : ZendeskSource) (fuel : nat) (replies : list reply)
         (before between after : list BaseChunk) (t : ZendeskTicketChunk.t),
    emitted (snd (run self fuel replies)) = before ++ TicketChunk t :: between ++ after ->
    Forall (fun c => is_ticket c = false) between ->
    forall m, In (CommentChunk m) between ->
              ZendeskCommentChunk.ticket_id m = ZendeskTicketChunk.entity_id t.
Proof.
  intros self fuel replies before between after t E Hb m Hm.
  pose proof (run_linked self fuel replies) as L. rewrite E in L.
  apply linked_suffix in L. destruct L as [last L]. simpl in L.
  pose proof (linked_until_next_ticket _ _ _ L Hb m Hm) as H.
  now inversion H.
Qed.

Lemma comments_carry_their_ticket_witness :
  emitted (snd (run (create "token") 7 ticket_42_replies)) =
  [TicketChunk (ticket_of_id "42");
   CommentChunk (comment_of_id "100" "42");
   CommentChunk (comment_of_id "101" "42");
   CommentChunk (comment_of_id "102" "42");
   TicketChunk (ticket_of_id "43")] /\
  ZendeskCommentChunk.ticket_id (comment_of_id "102" "42") =
  ZendeskTicketChunk.entity_id (ticket_of_id "42").
Proof.
  split; [reflexivity|].
  apply (comments_carry_their_ticket (create "token") 7 ticket_42_replies
           []
           [CommentChunk (comment_of_id "100" "42");
            CommentChunk (comment_of_id "101" "42");
            CommentChunk (comment_of_id "102" "42")]
           [TicketChunk (ticket_of_id "43")]
           (ticket_of_id "42")).
  - reflexivity.
  - repeat constructor.
  - simpl. auto.
Defined.

(** ** One page *)

Lemma get_with_auth_reply self client u w r rest :
  script w = Reply r :: rest ->
  _get_with_auth self client (JStr u) w =
  ((if is_success (status_code r) then
      match content r with
      | Some v => Returned v
      | None => Raised JSONDecodeError
      end
    else Raised (HTTPStatusError (status_code r))),
   sent self u w rest).
Proof.
  intros Hs. unfold _get_with_auth, bind, client_get, raise_for_status, response_json.
  rewrite Hs. unfold sent.
  destruct (is_success (status_code r)); [|reflexivity].
  destruct (content r); reflexivity.
Qed.

(** A page that arrives with a success status and a dict for body: the
    rest of the loop body runs on the dict. *)
Lemma paginate_reply {C} self client key (build : json -> result C) yield_ u w r rest data :
  script w = Reply r :: rest ->
  is_success (status_code r) = true ->
  content r = Some (JObj data) ->
  paginate self client key build yield_ (JStr u) w =
  (items <- lift (py_iter (get_or data key (JList []))) ;;
   for_in items (fun record => c <- lift (build record) ;; yield_ c) ;;
   ret (get_or data "next_page" JNull))%gen (sent self u w rest).
Proof.
  intros Hs Hok Hc. unfold paginate. unfold bind at 1.
  rewrite (get_with_auth_reply _ _ _ _ _ _ Hs), Hok, Hc.
  cbv beta iota. rewrite !py_get_obj. reflexivity.
Qed.

Lemma while_url_step fuel url body w :
  truthy url = true ->
  while_url (S fuel) url body w =
  (url' <- body url ;; while_url fuel url' body)%gen w.
Proof. intros H. simpl. rewrite H. reflexivity. Qed.

Lemma while_url_falsy fuel url body w :
  truthy url = false -> while_url fuel url body w = (Returned tt, w).
Proof. intros H. destruct fuel; simpl; rewrite H; reflexivity. Qed.

Lemma paginate_missing_array {C} self client key (build : json -> result C) yield_
    u w r rest data :
  script w = Reply r :: rest ->
  is_success (status_code r) = true ->
  content r = Some (JObj data) ->
  dict_get key data = None ->
  paginate self client key build yield_ (JStr u) w =
  (Returned (get_or data "next_page" JNull), sent self u w rest).
Proof.
  intros Hs Hok Hc Hk. rewrite (paginate_reply _ _ _ _ _ _ _ _ _ _ Hs Hok Hc).
  unfold get_or at 1. rewrite Hk. reflexivity.
Qed.

Lemma while_paginate_missing_array {C} self client key (build : json -> result C) yield_
    u w r rest data fuel :
  script w = Reply r :: rest ->
  is_success (status_code r) = true ->
  content r = Some (JObj data) ->
  dict_get key data = None ->
  truthy (JStr u) = true ->
  while_url (S fuel) (JStr u) (paginate self client key build yield_) w =
  while_url fuel (get_or data "next_page" JNull) (paginate self client key build yield_)
    (sent self u w rest).
Proof.
  intros Hs Hok Hc Hk Hu. rewrite while_url_step by assumption.
  unfold bind. rewrite (paginate_missing_array _ _ _ _ _ _ _ _ _ _ Hs Hok Hc Hk).
  reflexivity.
Qed.

(** C5: a page whose body is a dict without the record array of its
    generator ([organizations], [users], [tickets], [comments]) yields no
    chunk and raises nothing: the loop body ends with [url] set to the
    [next_page] of the page ([None] when there is none), and the loop goes
    on from there, or ends when that value is falsy. *)
Theorem missing_record_array_is_empty_page :
  forall (self : ZendeskSource) (client : AsyncClient) (u : string) (w : world)
         (r : Response) (rest : list reply) (data : list (string * json)),
    script w = Reply r :: rest ->
    is_success (status_code r) = true ->
    content r = Some (JObj data) ->
    let next := get_or data "next_page" JNull in
    let w' := sent self u w rest in
    (dict_get "organizations" data = None ->
     forall yield_,
       organizations_page self client yield_ (JStr u) w = (Returned next, w') /\
       (forall fuel, truthy (JStr u) = true ->
          while_url (S fuel) (JStr u) (organizations_page self client yield_) w =
          while_url fuel next (organizations_page self client yield_) w')) /\
    (dict_get "users" data = None ->
     forall yield_,
       users_page self client yield_ (JStr u) w = (Returned next, w') /\
       (forall fuel, truthy (JStr u) = true ->
          while_url (S fuel) (JStr u) (users_page self client yield_) w =
          while_url fuel next (users_page self client yield_) w')) /\
    (dict_get "tickets" data = None ->
     forall yield_,
       tickets_page self client yield_ (JStr u) w = (Returned next, w') /\
       (forall fuel, truthy (JStr u) = true ->
          while_url (S fuel) (JStr u) (tickets_page self client yield_) w =
          while_url fuel next (tickets_page self client yield_) w')) /\
    (dict_get "comments" data = None ->
     forall ticket_id yield_,
       comments_page self client ticket_id yield_ (JStr u) w = (Returned next, w') /\
       (forall fuel, truthy (JStr u) = true ->
          while_url (S fuel) (JStr u) (comments_page self client ticket_id yield_) w =
          while_url fuel next (comments_page self client ticket_id yield_) w')).
Proof.
  intros self client u w r rest data Hs Hok Hc next w'.
  repeat split; intros; subst next w'.
  - rewrite organizations_page_paginate. eapply paginate_missing_array; eauto.
  - rewrite organizations_page_paginate. eapply while_paginate_missing_array; eauto.
  - rewrite users_page_paginate. eapply paginate_missing_array; eauto.
  - rewrite users_page_paginate. eapply while_paginate_missing_array; eauto.
  - rewrite tickets_page_paginate. eapply paginate_missing_array; eauto.
  - rewrite tickets_page_paginate. eapply while_paginate_missing_array; eauto.
  - rewrite comments_page_paginate. eapply paginate_missing_array; eauto.
  - rewrite comments_page_paginate. eapply while_paginate_missing_array; eauto.
Qed.

Lemma missing_record_array_is_empty_page_witness :
  users_page (create "token") httpx_AsyncClient
    (fun user_chunk => emit (UserChunk user_chunk))
    (JStr "https://your_subdomain.zendesk.com/api/v2/users.json")
    (initial two_organization_pages) =
  (Returned (JStr "https://your_subdomain.zendesk.com/page2"),
   sent (create "token") "https://your_subdomain.zendesk.com/api/v2/users.json"
     (initial two_organization_pages) (tl two_organization_pages)).
Proof.
  destruct (missing_record_array_is_empty_page (create "token") httpx_AsyncClient
              "https://your_subdomain.zendesk.com/api/v2/users.json"
              (initial two_organization_pages) _ (tl two_organization_pages) _
              eq_refl eq_refl eq_refl) as [_ [Husers _]].
  exact (proj1 (Husers eq_refl _)).
Defined.

(** ** The last page *)

(** The [url] a page hands to the next turn of the loop is the
    [next_page] of its body. *)
Lemma paginate_returns {C} self client key (build : json -> result C) yield_
    url w r rest data v w1 :
  script w = Reply r :: rest ->
  content r = Some (JObj data) ->
  paginate self client key build yield_ url w = (Returned v, w1) ->
  v = get_or data "next_page" JNull.
Proof.
  intros Hs Hc H.
  destruct url as [| b | n | t | u | l | f]; try discriminate H.
  destruct (is_success (status_code r)) eqn:Hok.
  - rewrite (paginate_reply _ _ _ _ _ _ _ _ _ _ Hs Hok Hc) in H.
    unfold bind at 1 in H.
    destruct (lift (py_iter _) _) as [[items | e | | ] w2]; try discriminate H.
    unfold bind in H.
    destruct (for_in items _ w2) as [[[] | e | | ] w3]; try discriminate H.
    inversion H. reflexivity.
  - unfold paginate, bind in H.
    rewrite (get_with_auth_reply _ _ _ _ _ _ Hs), Hok in H. discriminate H.
Qed.

Lemma while_paginate_last {C} self client key (build : json -> result C) yield_
    url w r rest data fuel :
  truthy url = true ->
  script w = Reply r :: rest ->
  content r = Some (JObj data) ->
  truthy (get_or data "next_page" JNull) = false ->
  while_url (S fuel) url (paginate self client key build yield_) w =
  stops (paginate self client key build yield_ url w).
Proof.
  intros Hu Hs Hc Hn. rewrite while_url_step by assumption. unfold bind.
  destruct (paginate self client key build yield_ url w) as [[v | e | | ] w1] eqn:E;
    try reflexivity.
  rewrite (paginate_returns _ _ _ _ _ _ _ _ _ _ _ _ Hs Hc E).
  now rewrite while_url_falsy.
Qed.

Lemma no_next_page_falsy data :
  dict_get "next_page" data = None \/ dict_get "next_page" data = Some JNull ->
  truthy (get_or data "next_page" JNull) = false.
Proof. unfold get_or. intros [-> | ->]; reflexivity. Qed.

(** ** A record without [id] *)

Lemma bind_assoc {A B C} (m : M A) (f : A -> M B) (g : B -> M C) w :
  bind (bind m f) g w = bind m (fun a => bind (f a) g) w.
Proof. unfold bind. destruct (m w) as [[a | e | | ] w1]; reflexivity. Qed.

Lemma bind_ext {A B} (m : M A) (f g : A -> M B) w :
  (forall a w1, f a w1 = g a w1) -> bind m f w = bind m g w.
Proof. intros H. unfold bind. destruct (m w) as [[a | e | | ] w1]; auto. Qed.

Lemma bind_abort {A B C} (m : M A) (e : exn) (f : B -> M C) w :
  bind (bind m (fun _ => raise e)) f w = bind m (fun _ => raise e) w.
Proof. unfold bind. destruct (m w) as [[a | e' | | ] w1]; reflexivity. Qed.

Lemma for_in_abort {C} (build : json -> result C) yield_ before bad after e w :
  build bad = Err e ->
  for_in (before ++ bad :: after) (fun record => c <- lift (build record) ;; yield_ c) w =
  (for_in before (fun record => c <- lift (build record) ;; yield_ c) ;; raise e)%gen w.
Proof.
  intros Hb. revert w. induction before as [|x before IH]; intros w; simpl.
  - unfold bind. rewrite Hb. reflexivity.
  - etransitivity; [|symmetry; apply bind_assoc].
    apply bind_ext. intros _ w1. apply IH.
Qed.

Lemma bind_cong_l {A B} (m m' : M A) (f : A -> M B) w :
  m w = m' w -> bind m f w = bind m' f w.
Proof. intros H. unfold bind. now rewrite H. Qed.

Lemma paginate_abort {C} self client key (build : json -> result C) yield_
    u w r rest data before bad after e :
  script w = Reply r :: rest ->
  is_success (status_code r) = true ->
  content r = Some (JObj data) ->
  dict_get key data = Some (JList (before ++ bad :: after)) ->
  build bad = Err e ->
  paginate self client key build yield_ (JStr u) w =
  (for_in before (fun record => c <- lift (build record) ;; yield_ c) ;; raise e)%gen
    (sent self u w rest).
Proof.
  intros Hs Hok Hc Hk Hb.
  rewrite (paginate_reply _ _ _ _ _ _ _ _ _ _ Hs Hok Hc).
  unfold get_or at 1. rewrite Hk.
  unfold bind at 1. cbn [py_iter lift ret].
  erewrite bind_cong_l; [|apply for_in_abort; eassumption].
  apply bind_abort.
Qed.

Lemma while_paginate_abort {C} self client key (build : json -> result C) yield_
    u w r rest data before bad after e fuel :
  truthy (JStr u) = true ->
  script w = Reply r :: rest ->
  is_success (status_code r) = true ->
  content r = Some (JObj data) ->
  dict_get key data = Some (JList (before ++ bad :: after)) ->
  build bad = Err e ->
  while_url (S fuel) (JStr u) (paginate self client key build yield_) w =
  (for_in before (fun record => c <- lift (build record) ;; yield_ c) ;; raise e)%gen
    (sent self u w rest).
Proof.
  intros Hu Hs Hok Hc Hk Hb. rewrite while_url_step by assumption.
  unfold bind at 1. erewrite paginate_abort by eassumption.
  set (m := for_in before _). unfold bind.
  destruct (m (sent self u w rest)) as [[[] | e' | | ] w1]; reflexivity.
Qed.

(** ** Termination: every turn of a loop uses up a reply *)

Lemma settles_quiet {A} n (m : M A) :
  (forall w, fst (m w) <> Spinning /\ script (snd (m w)) = script w) -> settles n m.
Proof. intros H w _. destruct (H w) as [H1 H2]. rewrite H2. auto. Qed.

Lemma settles_ret {A} n (a : A) : settles n (ret a).
Proof. apply settles_quiet. intros w. split; [discriminate | reflexivity]. Qed.

Lemma settles_raise {A} n e : settles n (@raise A e).
Proof. apply settles_quiet. intros w. split; [discriminate | reflexivity]. Qed.

Lemma settles_lift {A} n (r : result A) : settles n (lift r).
Proof. destruct r; [apply settles_ret | apply settles_raise]. Qed.

Lemma settles_emit n c : settles n (emit c).
Proof. apply settles_quiet. intros w. split; [discriminate | reflexivity]. Qed.

Lemma settles_bind {A B} n (m : M A) (f : A -> M B) :
  settles n m -> (forall a, settles n (f a)) -> settles n (bind m f).
Proof.
  intros Hm Hf w Hw. unfold bind. destruct (Hm w Hw) as [H1 H2].
  destruct (m w) as [[a | e | | ] w1]; simpl in *; try (split; [discriminate | assumption]).
  - destruct (Hf a w1) as [H3 H4]; [lia|]. split; [assumption | lia].
  - now elim H1.
Qed.

Lemma takes_bind {A B} n (m : M A) (f : A -> M B) :
  settles n m -> takes_a_reply n m -> (forall a, settles n (f a)) ->
  takes_a_reply n (bind m f).
Proof.
  intros Hm Ht Hf w Hw b. unfold bind.
  destruct (Hm w Hw) as [H1 H2]. specialize (Ht w Hw).
  destruct (m w) as [[a | e | | ] w1]; simpl in *; try discriminate.
  intros Hb. specialize (Ht a eq_refl).
  destruct (Hf a w1) as [_ H4]; lia.
Qed.

Lemma settles_for_in {A} n (items : list A) body :
  (forall x, settles n (body x)) -> settles n (for_in items body).
Proof.
  intros Hb. induction items as [|x rest IH]; simpl.
  - apply settles_ret.
  - apply settles_bind; auto.
Qed.

Lemma client_get_script client url auth w :
  fst (client_get client url auth w) <> Spinning /\
  (List.length (script (snd (client_get client url auth w))) <= List.length (script w))%nat /\
  (forall r, fst (client_get client url auth w) = Returned r ->
             (List.length (script (snd (client_get client url auth w))) < List.length (script w))%nat).
Proof.
  destruct url; simpl; try (repeat split; [discriminate | lia | discriminate]).
  destruct (script w) as [|[r|] rest]; simpl;
    (repeat split; [discriminate | lia | try discriminate]).
  intros; lia.
Qed.

Lemma settles_get_with_auth n self client url : settles n (_get_with_auth self client url).
Proof.
  unfold _get_with_auth. apply settles_bind.
  - intros w _. destruct (client_get_script client url
                            ("Bearer " ++ access_token self)%string w) as [H1 [H2 _]].
    auto.
  - intros response. apply settles_bind.
    + unfold raise_for_status. destruct (is_success _);
        [apply settles_ret | apply settles_raise].
    + intros _. unfold response_json. destruct (content response);
        [apply settles_ret | apply settles_raise].
Qed.

Lemma takes_get_with_auth n self client url : takes_a_reply n (_get_with_auth self client url).
Proof.
  unfold _get_with_auth. apply takes_bind.
  - intros w _. destruct (client_get_script client url
                            ("Bearer " ++ access_token self)%string w) as [H1 [H2 _]].
    auto.
  - intros w _ r Hr. destruct (client_get_script client url
                                 ("Bearer " ++ access_token self)%string w) as [_ [_ H3]].
    eauto.
  - intros response. apply settles_bind.
    + unfold raise_for_status. destruct (is_success _);
        [apply settles_ret | apply settles_raise].
    + intros _. unfold response_json. destruct (content response);
        [apply settles_ret | apply settles_raise].
Qed.

Lemma paginate_rest_settles {C} n key (build : json -> result C) yield_ data :
  (forall c, settles n (yield_ c)) ->
  settles n (records <- lift (py_get data key (JList [])) ;;
             items <- lift (py_iter records) ;;
             for_in items (fun record => c <- lift (build record) ;; yield_ c) ;;
             lift (py_get data "next_page" JNull))%gen.
Proof.
  intros Hy.
  apply settles_bind; [apply settles_lift|]. intros records.
  apply settles_bind; [apply settles_lift|]. intros items.
  apply settles_bind; [|intros _; apply settles_lift].
  apply settles_for_in. intros record.
  apply settles_bind; [apply settles_lift | assumption].
Qed.

Lemma settles_paginate {C} n self client key (build : json -> result C) yield_ url :
  (forall c, settles n (yield_ c)) ->
  settles n (paginate self client key build yield_ url).
Proof.
  intros Hy. unfold paginate. apply settles_bind; [apply settles_get_with_auth|].
  intros data. now apply paginate_rest_settles.
Qed.

Lemma takes_paginate {C} n self client key (build : json -> result C) yield_ url :
  (forall c, settles n (yield_ c)) ->
  takes_a_reply n (paginate self client key build yield_ url).
Proof.
  intros Hy. unfold paginate.
  apply takes_bind; [apply settles_get_with_auth | apply takes_get_with_auth |].
  intros data. now apply paginate_rest_settles.
Qed.

(** A loop whose every turn uses up a reply is not cut by a fuel larger
    than the number of replies. *)
Lemma settles_while n body :
  (forall url, settles n (body url)) ->
  (forall url, takes_a_reply n (body url)) ->
  forall fuel, (fuel <= n)%nat -> forall url, settles fuel (while_url fuel url body).
Proof.
  intros Hs Ht. induction fuel as [|fuel IH]; intros Hn url w Hw; [lia|].
  simpl. destruct (truthy url); [|simpl; split; [discriminate | lia]].
  unfold bind.
  destruct (Hs url w) as [H1 H2]; [lia|].
  pose proof (Ht url w) as H3.
  destruct (body url w) as [[url' | e | | ] w1]; simpl in *;
    try (split; [discriminate | assumption]).
  - assert (List.length (script w1) < List.length (script w))%nat by (apply (H3 ltac:(lia) url'); reflexivity).
    destruct (IH ltac:(lia) url' w1) as [H4 H5]; [lia|]. split; [assumption | lia].
  - now elim H1.
Qed.

Lemma settles_organizations self fuel client yield_ :
  (forall c, settles fuel (yield_ c)) ->
  settles fuel (_generate_organization_chunks self fuel client yield_).
Proof.
  intros Hy. apply settles_while with (n := fuel); auto; intros url;
    rewrite organizations_page_paginate; [apply settles_paginate | apply takes_paginate]; auto.
Qed.

Lemma settles_users self fuel client yield_ :
  (forall c, settles fuel (yield_ c)) ->
  settles fuel (_generate_user_chunks self fuel client yield_).
Proof.
  intros Hy. apply settles_while with (n := fuel); auto; intros url;
    rewrite users_page_paginate; [apply settles_paginate | apply takes_paginate]; auto.
Qed.

Lemma settles_tickets self fuel client yield_ :
  (forall c, settles fuel (yield_ c)) ->
  settles fuel (_generate_ticket_chunks self fuel client yield_).
Proof.
  intros Hy. apply settles_while with (n := fuel); auto; intros url;
    rewrite tickets_page_paginate; [apply settles_paginate | apply takes_paginate]; auto.
Qed.

Lemma settles_comments self fuel client ticket_id yield_ :
  (forall c, settles fuel (yield_ c)) ->
  settles fuel (_generate_comment_chunks self fuel client ticket_id yield_).
Proof.
  intros Hy. apply settles_while with (n := fuel); auto; intros url;
    rewrite comments_page_paginate; [apply settles_paginate | apply takes_paginate]; auto.
Qed.

Lemma settles_ticket_and_comments self fuel client t :
  settles fuel (ticket_and_comments self fuel client t).
Proof.
  apply settles_bind; [apply settles_emit|]. intros _.
  apply settles_comments. intros c. apply settles_emit.
Qed.

Lemma settles_generate_chunks self fuel : settles fuel (generate_chunks self fuel).
Proof.
  rewrite generate_chunks_unfold.
  apply settles_bind; [apply settles_organizations; intros; apply settles_emit|].
  intros _. apply settles_bind; [apply settles_users; intros; apply settles_emit|].
  intros _. apply settles_tickets. intros t. apply settles_ticket_and_comments.
Qed.

(** C4: in the loop of each generator, a page whose body has no
    [next_page], or a null one, is the last: the loop ends as the handling
    of that page ends, with nothing fetched after it.  And no walk goes on
    for ever: a fuel above the number of replies is never what stops a
    generator or a run. *)
Theorem pagination_stops_without_next_page :
  (forall (self : ZendeskSource) (client : AsyncClient) (fuel : nat) (url : json)
          (w : world) (r : Response) (rest : list reply) (data : list (string * json)),
      truthy url = true ->
      script w = Reply r :: rest ->
      content r = Some (JObj data) ->
      dict_get "next_page" data = None \/ dict_get "next_page" data = Some JNull ->
      (forall yield_,
         while_url (S fuel) url (organizations_page self client yield_) w =
         stops (organizations_page self client yield_ url w)) /\
      (forall yield_,
         while_url (S fuel) url (users_page self client yield_) w =
         stops (users_page self client yield_ url w)) /\
      (forall yield_,
         while_url (S fuel) url (tickets_page self client yield_) w =
         stops (tickets_page self client yield_ url w)) /\
      (forall ticket_id yield_,
         while_url (S fuel) url (comments_page self client ticket_id yield_) w =
         stops (comments_page self client ticket_id yield_ url w))) /\
  (forall (self : ZendeskSource) (client : AsyncClient) (fuel : nat) (w : world),
      (List.length (script w) < fuel)%nat ->
      fst (_generate_organization_chunks self fuel client
             (fun org_chunk => emit (OrganizationChunk org_chunk)) w) <> Spinning /\
      fst (_generate_user_chunks self fuel client
             (fun user_chunk => emit (UserChunk user_chunk)) w) <> Spinning /\
      fst (_generate_ticket_chunks self fuel client
             (ticket_and_comments self fuel client) w) <> Spinning /\
      (forall ticket_id,
         fst (_generate_comment_chunks self fuel client ticket_id
                (fun comment_chunk => emit (CommentChunk comment_chunk)) w) <> Spinning) /\
      fst (generate_chunks self fuel w) <> Spinning).
Proof.
  split.
  - intros self client fuel url w r rest data Hu Hs Hc Hn.
    apply no_next_page_falsy in Hn.
    repeat split; intros.
    + rewrite organizations_page_paginate. eapply while_paginate_last; eauto.
    + rewrite users_page_paginate. eapply while_paginate_last; eauto.
    + rewrite tickets_page_paginate. eapply while_paginate_last; eauto.
    + rewrite comments_page_paginate. eapply while_paginate_last; eauto.
  - intros self client fuel w Hw. repeat split; intros.
    + apply settles_organizations; auto. intros; apply settles_emit.
    + apply settles_users; auto. intros; apply settles_emit.
    + apply settles_tickets; auto. intros; apply settles_ticket_and_comments.
    + apply settles_comments; auto. intros; apply settles_emit.
    + apply settles_generate_chunks; auto.
Qed.

Lemma pagination_stops_without_next_page_witness :
  while_url 1 (JStr "https://your_subdomain.zendesk.com/page2")
    (organizations_page (create "token") httpx_AsyncClient
       (fun org_chunk => emit (OrganizationChunk org_chunk)))
    (initial (tl two_organization_pages)) =
  (Returned tt,
   {| script := [];
      requests := [{| url := "https://your_subdomain.zendesk.com/page2";
                      authorization := "Bearer token" |}];
      emitted := [organization_of_id "2"] |}) /\
  fst (generate_chunks (create "token") 3 (initial two_organization_pages)) <> Spinning.
Proof.
  destruct pagination_stops_without_next_page as [Hlast Hfuel].
  split.
  - destruct (Hlast (create "token") httpx_AsyncClient 0%nat
                (JStr "https://your_subdomain.zendesk.com/page2")
                (initial (tl two_organization_pages)) _ [] _
                eq_refl eq_refl eq_refl (or_intror eq_refl)) as [Horg _].
    rewrite Horg. reflexivity.
  - apply (Hfuel (create "token") httpx_AsyncClient 3%nat (initial two_organization_pages)).
    simpl. lia.
Defined.

(** Two organizations on two pages: two chunks, two requests, and the
    generator returns. *)
Example two_pages_two_organizations :
  _generate_organization_chunks (create "token") 2 httpx_AsyncClient
    (fun org_chunk => emit (OrganizationChunk org_chunk))
    (initial two_organization_pages) =
  (Returned tt,
   {| script := [];
      requests := [{| url := organizations_url; authorization := "Bearer token" |};
                   {| url := "https://your_subdomain.zendesk.com/page2";
                      authorization := "Bearer token" |}];
      emitted := [organization_of_id "1"; organization_of_id "2"] |}).
Proof. reflexivity. Qed.

(** ** A failed request ends the run *)

Lemma extensible_quiet {A} (o : outcome A) (g : world -> world) :
  o <> Awaiting ->
  (forall w s, g (with_script w s) = with_script (g w) s) ->
  (forall w, script (g w) = script w) ->
  extensible (fun w => (o, g w)).
Proof.
  intros Ho Hg Hs w more. cbv beta.
  destruct o; try (rewrite Hg, Hs; reflexivity). now elim Ho.
Qed.

Lemma extensible_ret {A} (a : A) : extensible (ret a).
Proof. apply (extensible_quiet (Returned a) (fun w => w)); auto; discriminate. Qed.

Lemma extensible_raise {A} e : extensible (@raise A e).
Proof. apply (extensible_quiet (Raised e) (fun w => w)); auto; discriminate. Qed.

Lemma extensible_lift {A} (r : result A) : extensible (lift r).
Proof. destruct r; [apply extensible_ret | apply extensible_raise]. Qed.

Lemma extensible_emit c : extensible (emit c).
Proof.
  apply (extensible_quiet (Returned tt)
           (fun w => {| script := script w; requests := requests w;
                        emitted := emitted w ++ [c] |})); auto; discriminate.
Qed.

Lemma extensible_bind {A B} (m : M A) (f : A -> M B) :
  extensible m -> (forall a, extensible (f a)) -> extensible (bind m f).
Proof.
  intros Hm Hf w more. unfold bind.
  pose proof (Hm w) as Hw.
  destruct (m w) as [[a | e | | ] w1].
  - pose proof (Hf a w1 more) as Hw1.
    destruct (f a w1) as [[b | e | | ] w2].
    + rewrite (Hw more). exact Hw1.
    + rewrite (Hw more). exact Hw1.
    + intros r Hr. rewrite (Hw (Reply r :: more)). exact (Hw1 r Hr).
    + rewrite (Hw more). exact Hw1.
  - now rewrite (Hw more).
  - intros r Hr. now rewrite (Hw more r Hr).
  - now rewrite (Hw more).
Qed.

Lemma extensible_for_in {A} (items : list A) body :
  (forall x, extensible (body x)) -> extensible (for_in items body).
Proof.
  intros Hb. induction items as [|x rest IH]; simpl.
  - apply extensible_ret.
  - apply extensible_bind; auto.
Qed.

Lemma extensible_while fuel url body :
  (forall u, extensible (body u)) -> extensible (while_url fuel url body).
Proof.
  intros Hb. revert url. induction fuel as [|fuel IH]; intros url; simpl.
  - destruct (truthy url); [|apply extensible_ret].
    apply (extensible_quiet Spinning (fun w => w)); auto; discriminate.
  - destruct (truthy url); [|apply extensible_ret].
    apply extensible_bind; auto.
Qed.

Lemma extensible_get_with_auth self client url : extensible (_get_with_auth self client url).
Proof.
  intros w more.
  destruct url as [| b | n | t | u | l | f]; try reflexivity.
  destruct (script w) as [|[r|] rest] eqn:Hs.
  - assert (E : _get_with_auth self client (JStr u) w =
                 (Awaiting, sent self u w [])).
    { unfold _get_with_auth, bind, client_get. rewrite Hs. reflexivity. }
    rewrite E. intros r Hr.
    rewrite (get_with_auth_reply self client u
               (with_script w ([] ++ Reply r :: more)) r more eq_refl), Hr.
    reflexivity.
  - rewrite (get_with_auth_reply self client u w r rest Hs).
    rewrite (get_with_auth_reply self client u
               (with_script w ((Reply r :: rest) ++ more)) r (rest ++ more) eq_refl).
    destruct (is_success (status_code r)); [destruct (content r)|]; reflexivity.
  - assert (E : forall w0 tail, script w0 = ConnectError :: tail ->
                 _get_with_auth self client (JStr u) w0 =
                 (Raised RequestError, sent self u w0 tail)).
    { intros w0 tail H0. unfold _get_with_auth, bind, client_get. rewrite H0. reflexivity. }
    rewrite (E w rest Hs).
    rewrite (E (with_script w ((ConnectError :: rest) ++ more)) (rest ++ more) eq_refl).
    reflexivity.
Qed.

Lemma extensible_paginate {C} self client key (build : json -> result C) yield_ url :
  (forall c, extensible (yield_ c)) ->
  extensible (paginate self client key build yield_ url).
Proof.
  intros Hy. unfold paginate.
  apply extensible_bind; [apply extensible_get_with_auth|]. intros data.
  apply extensible_bind; [apply extensible_lift|]. intros records.
  apply extensible_bind; [apply extensible_lift|]. intros items.
  apply extensible_bind; [|intros _; apply extensible_lift].
  apply extensible_for_in. intros record.
  apply extensible_bind; [apply extensible_lift | assumption].
Qed.

Lemma extensible_generate_chunks self fuel : extensible (generate_chunks self fuel).
Proof.
  rewrite generate_chunks_unfold.
  apply extensible_bind; [|intros _; apply extensible_bind; [|intros _]].
  - apply extensible_while. intros u. rewrite organizations_page_paginate.
    apply extensible_paginate. intros c. apply extensible_emit.
  - apply extensible_while. intros u. rewrite users_page_paginate.
    apply extensible_paginate. intros c. apply extensible_emit.
  - apply extensible_while. intros u. rewrite tickets_page_paginate.
    apply extensible_paginate. intros t.
    apply extensible_bind; [apply extensible_emit|]. intros _.
    apply extensible_while. intros u'. rewrite comments_page_paginate.
    apply extensible_paginate. intros c. apply extensible_emit.
Qed.

(** C6: when a GET of a run is answered with a status that is not 2xx,
    the run raises [HTTPStatusError] there.  [before] are the replies the
    run has had when it sends that GET: the chunks yielded are those
    yielded up to then and no more, the requests sent are those sent up to
    and with that GET and no more, and the replies that the remote would
    give next are never asked for. *)
Theorem http_failure_aborts_run :
  forall (self : ZendeskSource) (fuel : nat) (before : list reply) (r : Response)
         (after : list reply),
    is_success (status_code r) = false ->
    fst (run self fuel before) = Awaiting ->
    run self fuel (before ++ Reply r :: after) =
    (Raised (HTTPStatusError (status_code r)),
     {| script := after;
        requests := requests (snd (run self fuel before));
        emitted := emitted (snd (run self fuel before)) |}).
Proof.
  intros self fuel before r after Hr Hw. unfold run in *.
  pose proof (extensible_generate_chunks self fuel (initial before) after) as H.
  destruct (generate_chunks self fuel (initial before)) as [o w']. simpl in Hw. subst o.
  exact (H r Hr).
Qed.

Lemma http_failure_aborts_run_witness :
  run (create "token") 7 (firstn 4 ticket_42_replies ++ Reply forbidden :: [page_reply []]) =
  (Raised (HTTPStatusError 403),
   {| script := [page_reply []];
      requests := requests (snd (run (create "token") 7 (firstn 4 ticket_42_replies)));
      emitted := [TicketChunk (ticket_of_id "42");
                  CommentChunk (comment_of_id "100" "42");
                  CommentChunk (comment_of_id "101" "42")] |}).
Proof.
  exact (http_failure_aborts_run (create "token") 7 (firstn 4 ticket_42_replies) forbidden
           [page_reply []] eq_refl eq_refl).
Defined.

(** The requests of that run: the failed GET is the last one. *)
Example http_failure_requests :
  map url (requests (snd (run (create "token") 7
                            (firstn 4 ticket_42_replies ++ Reply forbidden :: [page_reply []])))) =
  ["https://your_subdomain.zendesk.com/api/v2/organizations.json";
   "https://your_subdomain.zendesk.com/api/v2/users.json";
   "https://your_subdomain.zendesk.com/api/v2/tickets.json";
   "https://your_subdomain.zendesk.com/api/v2/tickets/42/comments.json";
   "https://your_subdomain.zendesk.com/comments2"]%string.
Proof. reflexivity. Qed.

(** ** The stream is a function of the replies *)

Lemma settles_mono {A} n n' (m : M A) : (n' <= n)%nat -> settles n m -> settles n' m.
Proof. intros Hn Hm w Hw. apply Hm. lia. Qed.

Lemma takes_mono {A} n n' (m : M A) :
  (n' <= n)%nat -> takes_a_reply n m -> takes_a_reply n' m.
Proof. intros Hn Hm w Hw. apply Hm. lia. Qed.

Lemma agree_ret {A} n (a : A) : agree n (ret a) (ret a).
Proof. intros w1 w2 H _. auto. Qed.

Lemma agree_raise {A} n e : agree n (@raise A e) (raise e).
Proof. intros w1 w2 H _. auto. Qed.

Lemma agree_lift {A} n (r : result A) : agree n (lift r) (lift r).
Proof. destruct r; [apply agree_ret | apply agree_raise]. Qed.

Lemma agree_emit n c : agree n (emit c) (emit c).
Proof.
  intros w1 w2 [Hs [He Hr]] _. simpl. repeat split; auto. now rewrite He.
Qed.

Lemma agree_bind {A B} n (m1 m2 : M A) (f1 f2 : A -> M B) :
  agree n m1 m2 -> settles n m1 -> (forall a, agree n (f1 a) (f2 a)) ->
  agree n (bind m1 f1) (bind m2 f2).
Proof.
  intros Hm Hs Hf w1 w2 Hw Hn. unfold bind.
  destruct (Hm w1 w2 Hw Hn) as [Ho Hw']. destruct (Hs w1 Hn) as [_ Hl].
  destruct (m1 w1) as [o1 w1'], (m2 w2) as [o2 w2']. simpl in *. subst o2.
  destruct o1 as [a | e | | ]; auto.
  apply Hf; [assumption | lia].
Qed.

Lemma agree_for_in {A} n (items : list A) body1 body2 :
  (forall x, agree n (body1 x) (body2 x)) -> (forall x, settles n (body1 x)) ->
  agree n (for_in items body1) (for_in items body2).
Proof.
  intros Hb Hs. induction items as [|x rest IH]; simpl.
  - apply agree_ret.
  - apply agree_bind; auto.
Qed.

Lemma agree_get_with_auth n self1 self2 client u :
  agree n (_get_with_auth self1 client u) (_get_with_auth self2 client u).
Proof.
  intros w1 w2 [Hs [He Hr]] _.
  destruct u as [| b | k | t | u | l | f]; try (simpl; repeat split; assumption).
  assert (Hsent : forall rest, same_remote (sent self1 u w1 rest) (sent self2 u w2 rest)).
  { intros rest. repeat split; simpl; auto. rewrite !map_app, Hr. reflexivity. }
  destruct (script w1) as [|[r|] rest] eqn:H1; symmetry in Hs.
  - unfold _get_with_auth, bind, client_get. rewrite H1, Hs. simpl. split; auto. apply Hsent.
  - rewrite (get_with_auth_reply _ _ _ _ _ _ H1), (get_with_auth_reply _ _ _ _ _ _ Hs).
    simpl. auto.
  - unfold _get_with_auth, bind, client_get. rewrite H1, Hs. simpl. split; auto. apply Hsent.
Qed.

Lemma agree_paginate {C} n self1 self2 client key (build : json -> result C)
    yield1 yield2 u :
  (forall c, agree n (yield1 c) (yield2 c)) -> (forall c, settles n (yield1 c)) ->
  agree n (paginate self1 client key build yield1 u)
          (paginate self2 client key build yield2 u).
Proof.
  intros Hy Hs. unfold paginate.
  apply agree_bind; [apply agree_get_with_auth | apply settles_get_with_auth |].
  intros data.
  apply agree_bind; [apply agree_lift | apply settles_lift |]. intros records.
  apply agree_bind; [apply agree_lift | apply settles_lift |]. intros items.
  apply agree_bind; [| | intros _; apply agree_lift].
  - apply agree_for_in.
    + intros record. apply agree_bind; [apply agree_lift | apply settles_lift | assumption].
    + intros record. apply settles_bind; [apply settles_lift | assumption].
  - apply settles_for_in. intros record.
    apply settles_bind; [apply settles_lift | assumption].
Qed.

(** Two loops whose turns agree and use up a reply each agree, whatever
    fuel each has above the number of replies. *)
Lemma agree_while n body1 body2 :
  (forall u, agree n (body1 u) (body2 u)) ->
  (forall u, settles n (body1 u)) ->
  (forall u, takes_a_reply n (body1 u)) ->
  forall k, (k <= n)%nat ->
  forall fuel1 fuel2 u, (k <= fuel1)%nat -> (k <= fuel2)%nat ->
    agree k (while_url fuel1 u body1) (while_url fuel2 u body2).
Proof.
  intros Ha Hs Ht. induction k as [|k IH]; intros Hk fuel1 fuel2 u H1 H2 w1 w2 Hw Hn; [lia|].
  destruct fuel1 as [|fuel1]; [lia|]. destruct fuel2 as [|fuel2]; [lia|].
  simpl. destruct (truthy u); [|apply agree_ret with (n := S k); assumption].
  unfold bind.
  destruct (Ha u w1 w2 Hw) as [Ho Hw']; [lia|].
  pose proof (Ht u w1 ltac:(lia)) as Hlt.
  destruct (body1 u w1) as [o1 w1'], (body2 u w2) as [o2 w2']. simpl in *. subst o2.
  destruct o1 as [u' | e | | ]; auto.
  apply IH; try lia; auto.
  specialize (Hlt u' eq_refl). lia.
Qed.

Lemma agree_generate_chunks n self1 self2 fuel1 fuel2 :
  (n <= fuel1)%nat -> (n <= fuel2)%nat ->
  agree n (generate_chunks self1 fuel1) (generate_chunks self2 fuel2).
Proof.
  intros H1 H2. rewrite !generate_chunks_unfold.
  assert (Hemit : forall c, settles n (emit c)) by (intros; apply settles_emit).
  assert (Hcomments : forall t,
             agree n (ticket_and_comments self1 fuel1 httpx_AsyncClient t)
                     (ticket_and_comments self2 fuel2 httpx_AsyncClient t)).
  { intros t. apply agree_bind; [apply agree_emit | apply settles_emit |]. intros _.
    apply agree_while with (n := n); auto; intros u; rewrite ?comments_page_paginate.
    - apply agree_paginate; auto. intros c. apply agree_emit.
    - apply settles_paginate; auto.
    - apply takes_paginate; auto. }
  assert (Hblock : forall t, settles n (ticket_and_comments self1 fuel1 httpx_AsyncClient t)).
  { intros t. apply settles_mono with (n := fuel1); auto.
    apply settles_ticket_and_comments. }
  apply agree_bind; [| | intros _; apply agree_bind; [| | intros _]].
  - apply agree_while with (n := n); auto; intros u; rewrite ?organizations_page_paginate.
    + apply agree_paginate; auto. intros c. apply agree_emit.
    + apply settles_paginate; auto.
    + apply takes_paginate; auto.
  - apply settles_mono with (n := fuel1); auto.
    apply settles_organizations. intros; apply settles_emit.
  - apply agree_while with (n := n); auto; intros u; rewrite ?users_page_paginate.
    + apply agree_paginate; auto. intros c. apply agree_emit.
    + apply settles_paginate; auto.
    + apply takes_paginate; auto.
  - apply settles_mono with (n := fuel1); auto.
    apply settles_users. intros; apply settles_emit.
  - apply agree_while with (n := n); auto; intros u; rewrite ?tickets_page_paginate.
    + apply agree_paginate; auto.
    + apply settles_paginate; auto.
    + apply takes_paginate; auto.
Qed.

(** C9: two runs against the same replies give the same chunks in the
    same order, end the same way and ask for the same URLs: the stream
    depends on the replies alone, not on the instance (its token) nor on
    the fuel, once above the number of replies. *)
Theorem same_replies_same_chunks :
  forall (self1 self2 : ZendeskSource) (fuel1 fuel2 : nat) (replies : list reply),
    (List.length replies < fuel1)%nat ->
    (List.length replies < fuel2)%nat ->
    emitted (snd (run self1 fuel1 replies)) = emitted (snd (run self2 fuel2 replies)) /\
    fst (run self1 fuel1 replies) = fst (run self2 fuel2 replies) /\
    map url (requests (snd (run self1 fuel1 replies))) =
    map url (requests (snd (run self2 fuel2 replies))).
Proof.
  intros self1 self2 fuel1 fuel2 replies H1 H2. unfold run.
  destruct (agree_generate_chunks (S (List.length replies)) self1 self2 fuel1 fuel2
              ltac:(lia) ltac:(lia) (initial replies) (initial replies))
    as [Ho [_ [He Hr]]].
  - repeat split.
  - simpl. lia.
  - auto.
Qed.

Lemma same_replies_same_chunks_witness :
  emitted (snd (run (create "token") 7 ticket_42_replies)) =
  emitted (snd (run (create "another token") 20 ticket_42_replies)) /\
  fst (run (create "token") 7 ticket_42_replies) =
  fst (run (create "another token") 20 ticket_42_replies) /\
  map url (requests (snd (run (create "token") 7 ticket_42_replies))) =
  map url (requests (snd (run (create "another token") 20 ticket_42_replies))).
Proof.
  apply (same_replies_same_chunks (create "token") (create "another token") 7 20
           ticket_42_replies); simpl; lia.
Defined.

(** * Further properties of the source *)

(** ** Foreign keys, defaults and values passed through *)

Lemma str_of_int_not_empty n : str_of_int n <> EmptyString.
Proof.
  unfold str_of_int. destruct (Z.to_int n) as [u | u]; simpl.
  - destruct u; discriminate.
  - discriminate.
Qed.

Lemma py_str_empty v :
  (forall t, v <> JFloat t) -> py_str v = EmptyString -> v = JStr EmptyString.
Proof.
  intros Hf H. destruct v as [| b | n | t | s | l | f]; simpl in H.
  - discriminate.
  - destruct b; discriminate.
  - now apply str_of_int_not_empty in H.
  - now elim (Hf t).
  - now subst.
  - discriminate.
  - discriminate.
Qed.

Lemma or_None_None s : or_None s = None <-> s = EmptyString.
Proof.
  unfold or_None, truthy. destruct s; simpl; split; intros H; try reflexivity; discriminate.
Qed.

(** X1: [str(record.get(key, "")) or None] is [None] exactly when the key
    is absent or holds the empty str (the value not being a float); a JSON
    null is not an absence: it becomes the str ["None"]. *)
Theorem foreign_key_none_iff :
  forall (d : list (string * json)) (key : string),
    (forall t, dict_get key d <> Some (JFloat t)) ->
    (foreign_key (JObj d) key = Ok None <->
     dict_get key d = None \/ dict_get key d = Some (JStr EmptyString)) /\
    (dict_get key d = Some JNull -> foreign_key (JObj d) key = Ok (Some "None"%string)).
Proof.
  intros d key Hf. rewrite foreign_key_obj. unfold get_or. split.
  - destruct (dict_get key d) as [v|] eqn:E.
    + split.
      * intros H. right. f_equal. inversion H as [H']. apply or_None_None in H'.
        apply py_str_empty; [|assumption]. intros t ->. now elim (Hf t).
      * intros [H | H]; [discriminate|]. inversion H. reflexivity.
    + split; auto.
  - intros ->. reflexivity.
Qed.

Lemma foreign_key_none_iff_witness :
  foreign_key (JObj [("id", JInt 7); ("assignee_id", JNull)]%string) "assignee_id"
  = Ok (Some "None"%string).
Proof.
  apply (foreign_key_none_iff [("id", JInt 7); ("assignee_id", JNull)]%string "assignee_id").
  - intros t. discriminate.
  - reflexivity.
Defined.

(** X2: a record without a boolean flag ([shared_tickets] and
    [shared_comments] of an organization, [suspended] of a user, [public]
    of a comment) gives a chunk whose flag is [False]. *)
Theorem missing_flag_is_false :
  forall d : list (string * json),
    (forall c, organization_chunk (JObj d) = Ok c -> dict_get "shared_tickets" d = None ->
       ZendeskOrganizationChunk.shared_tickets c = JBool false) /\
    (forall c, organization_chunk (JObj d) = Ok c -> dict_get "shared_comments" d = None ->
       ZendeskOrganizationChunk.shared_comments c = JBool false) /\
    (forall c, user_chunk (JObj d) = Ok c -> dict_get "suspended" d = None ->
       ZendeskUserChunk.suspended c = JBool false) /\
    (forall ticket_id c, comment_chunk ticket_id (JObj d) = Ok c ->
       dict_get "public" d = None ->
       ZendeskCommentChunk.public c = JBool false).
Proof.
  intros d. repeat split.
  - intros c Hc Hk. rewrite organization_chunk_obj in Hc.
    destruct (dict_get "id" d); [|discriminate].
    inversion Hc; subst c; simpl. unfold get_or. now rewrite Hk.
  - intros c Hc Hk. rewrite organization_chunk_obj in Hc.
    destruct (dict_get "id" d); [|discriminate].
    inversion Hc; subst c; simpl. unfold get_or. now rewrite Hk.
  - intros c Hc Hk. rewrite user_chunk_obj in Hc.
    destruct (dict_get "id" d); [|discriminate].
    inversion Hc; subst c; simpl. unfold get_or. now rewrite Hk.
  - intros tid c Hc Hk. rewrite comment_chunk_obj in Hc.
    destruct (dict_get "id" d); [|discriminate].
    inversion Hc; subst c; simpl. unfold get_or. now rewrite Hk.
Qed.

Lemma missing_flag_is_false_witness :
  exists o u m,
    organization_chunk (record_of_id 3) = Ok o /\
    user_chunk (record_of_id 3) = Ok u /\
    comment_chunk "9" (record_of_id 3) = Ok m /\
    ZendeskOrganizationChunk.shared_tickets o = JBool false /\
    ZendeskOrganizationChunk.shared_comments o = JBool false /\
    ZendeskUserChunk.suspended u = JBool false /\
    ZendeskCommentChunk.public m = JBool false.
Proof.
  destruct (missing_flag_is_false [("id", JInt 3)]%string) as [H1 [H2 [H3 H4]]].
  eexists; eexists; eexists.
  split; [reflexivity|]. split; [reflexivity|]. split; [reflexivity|].
  split; [apply H1; reflexivity|]. split; [apply H2; reflexivity|].
  split; [apply H3; reflexivity|]. apply (H4 "9"%string); reflexivity.
Defined.

(** X3: the default of a list-valued field stands in for a missing key
    only.  A value that is present is stored as it is: a null
    [domain_names], [tags], [custom_fields] or [attachments] stays [None]
    and does not become the empty list. *)
Theorem present_list_field_is_kept :
  forall (d : list (string * json)) (v : json),
    (forall c, organization_chunk (JObj d) = Ok c -> dict_get "domain_names" d = Some v ->
       ZendeskOrganizationChunk.domain_names c = v) /\
    (forall c, ticket_chunk (JObj d) = Ok c -> dict_get "tags" d = Some v ->
       ZendeskTicketChunk.tags c = v) /\
    (forall c, ticket_chunk (JObj d) = Ok c -> dict_get "custom_fields" d = Some v ->
       ZendeskTicketChunk.custom_fields c = v) /\
    (forall ticket_id c, comment_chunk ticket_id (JObj d) = Ok c ->
       dict_get "attachments" d = Some v ->
       ZendeskCommentChunk.attachments c = v).
Proof.
  intros d v. repeat split.
  - intros c Hc Hk. rewrite organization_chunk_obj in Hc.
    destruct (dict_get "id" d); [|discriminate].
    inversion Hc; subst c; simpl. unfold get_or. now rewrite Hk.
  - intros c Hc Hk. rewrite ticket_chunk_obj in Hc.
    destruct (dict_get "id" d); [|discriminate].
    inversion Hc; subst c; simpl. unfold get_or. now rewrite Hk.
  - intros c Hc Hk. rewrite ticket_chunk_obj in Hc.
    destruct (dict_get "id" d); [|discriminate].
    inversion Hc; subst c; simpl. unfold get_or. now rewrite Hk.
  - intros tid c Hc Hk. rewrite comment_chunk_obj in Hc.
    destruct (dict_get "id" d); [|discriminate].
    inversion Hc; subst c; simpl. unfold get_or. now rewrite Hk.
Qed.

Lemma present_list_field_is_kept_witness :
  exists t,
    ticket_chunk (JObj [("id", JInt 3); ("tags", JNull)]%string) = Ok t /\
    ZendeskTicketChunk.tags t = JNull /\
    ZendeskTicketChunk.tags t <> JList [].
Proof.
  destruct (present_list_field_is_kept [("id", JInt 3); ("tags", JNull)]%string JNull)
    as [_ [Ht _]].
  eexists. split; [reflexivity|].
  split; [apply Ht; reflexivity | rewrite (Ht _ eq_refl eq_refl); discriminate].
Defined.

(** ** Identifiers *)

Lemma str_of_int_inj a b : str_of_int a = str_of_int b -> a = b.
Proof.
  unfold str_of_int. intros H.
  assert (R : forall d, option_map Z.of_int (NilZero.int_of_string (NilZero.string_of_int d))
                        = Some (Z.of_int d)).
  { intros d.
    destruct (Decimal.signed_int_eq_dec d (Decimal.Pos Decimal.Nil)) as [-> | H1];
      [reflexivity|].
    destruct (Decimal.signed_int_eq_dec d (Decimal.Neg Decimal.Nil)) as [-> | H2];
      [reflexivity|].
    now rewrite NilZero.isi. }
  pose proof (R (Z.to_int a)) as Ra. pose proof (R (Z.to_int b)) as Rb.
  rewrite H, Rb, !DecimalZ.of_to in Ra. now inversion Ra.
Qed.

(** X4: chunks of records with different integer ids have different
    [entity_id]s: the decimal text of the id can be read back. *)
Theorem entity_id_identifies_integer_id :
  forall (record1 record2 : json) (c1 c2 : BaseChunk) (a b : Z),
    chunk_of_record record1 c1 ->
    chunk_of_record record2 c2 ->
    py_getitem record1 "id" = Ok (JInt a) ->
    py_getitem record2 "id" = Ok (JInt b) ->
    a <> b ->
    entity_id c1 <> entity_id c2.
Proof.
  assert (E : forall record c n,
             chunk_of_record record c -> py_getitem record "id" = Ok (JInt n) ->
             entity_id c = str_of_int n).
  { intros record c n Hc Hid.
    destruct (py_getitem_Ok _ _ _ Hid) as [d [-> Hd]].
    destruct c as [o | u | t | m]; simpl in Hc.
    - rewrite organization_chunk_obj, Hd in Hc. inversion Hc. reflexivity.
    - rewrite user_chunk_obj, Hd in Hc. inversion Hc. reflexivity.
    - rewrite ticket_chunk_obj, Hd in Hc. inversion Hc. reflexivity.
    - destruct Hc as [tid Hc]. rewrite comment_chunk_obj, Hd in Hc. inversion Hc. reflexivity. }
  intros record1 record2 c1 c2 a b H1 H2 Ha Hb Hab Heq.
  rewrite (E _ _ _ H1 Ha), (E _ _ _ H2 Hb) in Heq. now apply Hab, str_of_int_inj.
Qed.

Lemma entity_id_identifies_integer_id_witness :
  entity_id (TicketChunk (ticket_of_id "42")) <> entity_id (UserChunk
    (ZendeskUserChunk.mk "zendesk" "43" JNull JNull JNull JNull JNull JNull JNull
       (JBool false) false)).
Proof.
  apply (entity_id_identifies_integer_id (record_of_id 42) (record_of_id 43) _ _ 42 43);
    try reflexivity.
  discriminate.
Defined.

(** ** Pages and records of an unexpected shape *)

Lemma each_page_paginate self client (P : string -> (json -> M json) -> Prop) :
  (forall C key (build : json -> result C) yield_,
      P key (paginate self client key build yield_)) ->
  each_page self client P.
Proof.
  intros H. repeat split; intros.
  - rewrite organizations_page_paginate. apply H.
  - rewrite users_page_paginate. apply H.
  - rewrite tickets_page_paginate. apply H.
  - rewrite comments_page_paginate. apply H.
Qed.

Lemma while_raises fuel (u : json) body (e : exn) w w' :
  truthy u = true -> body u w = (Raised e, w') ->
  while_url (S fuel) u body w = (Raised e, w').
Proof.
  intros Hu Hb. rewrite while_url_step by assumption. unfold bind. now rewrite Hb.
Qed.

Lemma paginate_body_not_dict {C} self client key (build : json -> result C) yield_
    u w r rest v :
  script w = Reply r :: rest ->
  is_success (status_code r) = true ->
  content r = Some v ->
  (forall d, v <> JObj d) ->
  paginate self client key build yield_ (JStr u) w =
  (Raised AttributeError, sent self u w rest).
Proof.
  intros Hs Hok Hc Hv. unfold paginate. unfold bind at 1.
  rewrite (get_with_auth_reply _ _ _ _ _ _ Hs), Hok, Hc.
  destruct v; try reflexivity. now elim (Hv fields).
Qed.

(** X5: a page that arrives with a success status and a JSON body that is
    not an object (a list, a string, a number, null) makes the generator
    raise [AttributeError] once the request is answered; no chunk is
    yielded for it and the loop is left. *)
Theorem body_not_a_dict_raises :
  forall (self : ZendeskSource) (client : AsyncClient) (u : string) (w : world)
         (r : Response) (rest : list reply) (v : json),
    truthy (JStr u) = true ->
    script w = Reply r :: rest ->
    is_success (status_code r) = true ->
    content r = Some v ->
    (forall d, v <> JObj d) ->
    each_page self client
      (fun _ page =>
         forall fuel,
           while_url (S fuel) (JStr u) page w = (Raised AttributeError, sent self u w rest)).
Proof.
  intros self client u w r rest v Hu Hs Hok Hc Hv.
  apply each_page_paginate. intros C key build yield_ fuel.
  apply while_raises; [assumption|]. eapply paginate_body_not_dict; eauto.
Qed.

Lemma body_not_a_dict_raises_witness :
  _generate_user_chunks (create "token") 1 httpx_AsyncClient
    (fun user_chunk => emit (UserChunk user_chunk))
    (initial [Reply {| status_code := 200; content := Some (JList [record_of_id 1]) |}]) =
  (Raised AttributeError,
   sent (create "token") "https://your_subdomain.zendesk.com/api/v2/users.json"
     (initial [Reply {| status_code := 200; content := Some (JList [record_of_id 1]) |}]) []).
Proof.
  destruct (body_not_a_dict_raises (create "token") httpx_AsyncClient
              "https://your_subdomain.zendesk.com/api/v2/users.json"
              (initial [Reply {| status_code := 200; content := Some (JList [record_of_id 1]) |}])
              _ [] (JList [record_of_id 1]) eq_refl eq_refl eq_refl eq_refl
              ltac:(discriminate)) as [_ [Husers _]].
  exact (Husers _ 0%nat).
Defined.

Lemma paginate_array_not_iterable {C} self client key (build : json -> result C) yield_
    u w r rest data v :
  script w = Reply r :: rest ->
  is_success (status_code r) = true ->
  content r = Some (JObj data) ->
  dict_get key data = Some v ->
  py_iter v = Err TypeError ->
  paginate self client key build yield_ (JStr u) w = (Raised TypeError, sent self u w rest).
Proof.
  intros Hs Hok Hc Hk Hv. rewrite (paginate_reply _ _ _ _ _ _ _ _ _ _ Hs Hok Hc).
  unfold get_or at 1. rewrite Hk. unfold bind. rewrite Hv. reflexivity.
Qed.

(** X6: the default [[]] of [data.get(key, [])] stands in for a missing
    record array only.  An array that is present but is null, a boolean or
    a number cannot be iterated: the generator raises [TypeError], yields
    nothing for the page and leaves the loop. *)
Theorem record_array_not_iterable_raises :
  forall (self : ZendeskSource) (client : AsyncClient) (u : string) (w : world)
         (r : Response) (rest : list reply) (data : list (string * json)) (v : json),
    truthy (JStr u) = true ->
    script w = Reply r :: rest ->
    is_success (status_code r) = true ->
    content r = Some (JObj data) ->
    (v = JNull \/ (exists b, v = JBool b) \/ (exists n, v = JInt n) \/ (exists t, v = JFloat t)) ->
    each_page self client
      (fun key page =>
         dict_get key data = Some v ->
         forall fuel,
           while_url (S fuel) (JStr u) page w = (Raised TypeError, sent self u w rest)).
Proof.
  intros self client u w r rest data v Hu Hs Hok Hc Hv.
  assert (Hi : py_iter v = Err TypeError).
  { destruct Hv as [-> | [[b ->] | [[n ->] | [t ->]]]]; reflexivity. }
  apply each_page_paginate. intros C key build yield_ Hk fuel.
  apply while_raises; [assumption|]. eapply paginate_array_not_iterable; eauto.
Qed.

Lemma record_array_not_iterable_raises_witness :
  _generate_ticket_chunks (create "token") 1 httpx_AsyncClient
    (ticket_and_comments (create "token") 1 httpx_AsyncClient)
    (initial [page_reply [("tickets", JNull)]%string]) =
  (Raised TypeError,
   sent (create "token") "https://your_subdomain.zendesk.com/api/v2/tickets.json"
     (initial [page_reply [("tickets", JNull)]%string]) []).
Proof.
  destruct (record_array_not_iterable_raises (create "token") httpx_AsyncClient
              "https://your_subdomain.zendesk.com/api/v2/tickets.json"
              (initial [page_reply [("tickets", JNull)]%string])
              _ [] _ JNull eq_refl eq_refl eq_refl eq_refl (or_introl eq_refl))
    as [_ [_ [Htickets _]]].
  exact (Htickets _ eq_refl 0%nat).
Defined.

Lemma not_a_dict_builders bad :
  (forall d, bad <> JObj d) ->
  organization_chunk bad = Err TypeError /\
  user_chunk bad = Err TypeError /\
  ticket_chunk bad = Err TypeError /\
  forall ticket_id, comment_chunk ticket_id bad = Err TypeError.
Proof.
  intros H. destruct bad; try (repeat split; reflexivity). now elim (H fields).
Qed.

(** X7: an element of a record array that is not a JSON object (a number,
    a string, null, a list) cannot be subscripted with ["id"]: its
    generator raises [TypeError] at that element, after the records before
    it, and neither the elements after it nor a further page is touched. *)
Theorem record_not_a_dict_aborts :
  forall bad : json,
    (forall d, bad <> JObj d) ->
    (organization_chunk bad = Err TypeError /\
     user_chunk bad = Err TypeError /\
     ticket_chunk bad = Err TypeError /\
     forall ticket_id, comment_chunk ticket_id bad = Err TypeError) /\
    forall (self : ZendeskSource) (client : AsyncClient) (fuel : nat) (u : string)
           (w : world) (r : Response) (rest : list reply) (data : list (string * json))
           (before after : list json),
      truthy (JStr u) = true ->
      script w = Reply r :: rest ->
      is_success (status_code r) = true ->
      content r = Some (JObj data) ->
      let records := JList (before ++ bad :: after) in
      let w' := sent self u w rest in
      (dict_get "organizations" data = Some records ->
       forall yield_,
         while_url (S fuel) (JStr u) (organizations_page self client yield_) w =
         (for_in before (fun record => c <- lift (organization_chunk record) ;; yield_ c) ;;
          raise TypeError)%gen w') /\
      (dict_get "users" data = Some records ->
       forall yield_,
         while_url (S fuel) (JStr u) (users_page self client yield_) w =
         (for_in before (fun record => c <- lift (user_chunk record) ;; yield_ c) ;;
          raise TypeError)%gen w') /\
      (dict_get "tickets" data = Some records ->
       forall yield_,
         while_url (S fuel) (JStr u) (tickets_page self client yield_) w =
         (for_in before (fun record => c <- lift (ticket_chunk record) ;; yield_ c) ;;
          raise TypeError)%gen w') /\
      (dict_get "comments" data = Some records ->
       forall ticket_id yield_,
         while_url (S fuel) (JStr u) (comments_page self client ticket_id yield_) w =
         (for_in before
            (fun record => c <- lift (comment_chunk ticket_id record) ;; yield_ c) ;;
          raise TypeError)%gen w').
Proof.
  intros bad Hbad. destruct (not_a_dict_builders bad Hbad) as [Ho [Hu [Ht Hc]]].
  split; [auto|].
  intros self client fuel u w r rest data before after Hurl Hs Hok Hbody records w'.
  subst records w'. repeat split; intros.
  - rewrite organizations_page_paginate. eapply while_paginate_abort; eauto.
  - rewrite users_page_paginate. eapply while_paginate_abort; eauto.
  - rewrite tickets_page_paginate. eapply while_paginate_abort; eauto.
  - rewrite comments_page_paginate. eapply while_paginate_abort; eauto.
Qed.

Lemma record_not_a_dict_aborts_witness :
  run (create "token") 5
    [page_reply [("organizations", JList [record_of_id 1; JInt 2; record_of_id 3])]%string;
     page_reply []] =
  (Raised TypeError,
   {| script := [page_reply []];
      requests := [{| url := organizations_url; authorization := "Bearer token" |}];
      emitted := [organization_of_id "1"] |}).
Proof.
  destruct (record_not_a_dict_aborts (JInt 2) ltac:(discriminate)) as [_ Hrun].
  destruct (Hrun (create "token") httpx_AsyncClient 4%nat organizations_url
              (initial [page_reply [("organizations",
                                     JList [record_of_id 1; JInt 2; record_of_id 3])]%string;
                        page_reply []])
              _ [page_reply []] _ [record_of_id 1] [record_of_id 3]
              eq_refl eq_refl eq_refl eq_refl) as [Horg _].
  unfold run. rewrite generate_chunks_unfold. unfold bind at 1.
  unfold _generate_organization_chunks.
  change (JStr "https://your_subdomain.zendesk.com/api/v2/organizations.json")
    with (JStr organizations_url).
  rewrite (Horg eq_refl). reflexivity.
Defined.

(** ** The [next_page] link *)

(** X8: the loop tests [url] for truth, so any falsy [next_page] ends the
    walk as a null does: the empty string, [0], [false], an empty list or
    an empty object.  The loop ends as the handling of that page ends. *)
Theorem falsy_next_page_stops :
  forall (self : ZendeskSource) (client : AsyncClient) (url : json) (w : world)
         (r : Response) (rest : list reply) (data : list (string * json)) (v : json),
    truthy url = true ->
    script w = Reply r :: rest ->
    content r = Some (JObj data) ->
    dict_get "next_page" data = Some v ->
    (v = JStr EmptyString \/ v = JInt 0 \/ v = JBool false \/ v = JList [] \/ v = JObj []) ->
    each_page self client
      (fun _ page => forall fuel, while_url (S fuel) url page w = stops (page url w)).
Proof.
  intros self client url w r rest data v Hu Hs Hc Hn Hv.
  assert (Hf : truthy (get_or data "next_page" JNull) = false).
  { unfold get_or. rewrite Hn. destruct Hv as [-> | [-> | [-> | [-> | ->]]]]; reflexivity. }
  apply each_page_paginate. intros C key build yield_ fuel.
  eapply while_paginate_last; eauto.
Qed.

Lemma falsy_next_page_stops_witness :
  _generate_organization_chunks (create "token") 1 httpx_AsyncClient
    (fun org_chunk => emit (OrganizationChunk org_chunk))
    (initial [page_reply [("organizations", JList [record_of_id 1]);
                          ("next_page", JStr EmptyString)]%string;
              page_reply []]) =
  (Returned tt,
   {| script := [page_reply []];
      requests := [{| url := organizations_url; authorization := "Bearer token" |}];
      emitted := [organization_of_id "1"] |}).
Proof.
  destruct (falsy_next_page_stops (create "token") httpx_AsyncClient (JStr organizations_url)
              (initial [page_reply [("organizations", JList [record_of_id 1]);
                                    ("next_page", JStr EmptyString)]%string;
                        page_reply []])
              _ [page_reply []] _ (JStr EmptyString)
              eq_refl eq_refl eq_refl eq_refl (or_introl eq_refl)) as [Horg _].
  unfold _generate_organization_chunks.
  change (JStr "https://your_subdomain.zendesk.com/api/v2/organizations.json")
    with (JStr organizations_url).
  rewrite Horg. reflexivity.
Defined.

Lemma paginate_url_not_str {C} self client key (build : json -> result C) yield_ v w :
  (forall s, v <> JStr s) ->
  paginate self client key build yield_ v w = (Raised TypeError, w).
Proof.
  intros Hv. destruct v; try reflexivity. now elim (Hv s).
Qed.

(** X9: a [url] that is truthy but is not a str (a [next_page] that is a
    number, [true], a non-empty list or object) never reaches the remote:
    [client.get] raises [TypeError], no request is sent and no reply is
    used. *)
Theorem next_page_not_a_str_raises :
  forall (self : ZendeskSource) (client : AsyncClient) (v : json),
    truthy v = true ->
    (forall s, v <> JStr s) ->
    each_page self client
      (fun _ page => forall fuel w, while_url (S fuel) v page w = (Raised TypeError, w)).
Proof.
  intros self client v Hv Hs.
  apply each_page_paginate. intros C key build yield_ fuel w.
  apply while_raises; [assumption|]. now apply paginate_url_not_str.
Qed.

Lemma next_page_not_a_str_raises_witness :
  _generate_organization_chunks (create "token") 2 httpx_AsyncClient
    (fun org_chunk => emit (OrganizationChunk org_chunk))
    (initial [page_reply [("organizations", JList [record_of_id 1]);
                          ("next_page", JInt 2)]%string;
              page_reply []]) =
  (Raised TypeError,
   {| script := [page_reply []];
      requests := [{| url := organizations_url; authorization := "Bearer token" |}];
      emitted := [organization_of_id "1"] |}).
Proof.
  destruct (next_page_not_a_str_raises (create "token") httpx_AsyncClient (JInt 2)
              eq_refl ltac:(discriminate)) as [Horg _].
  unfold _generate_organization_chunks. rewrite while_url_step by reflexivity.
  unfold bind.
  change (organizations_page (create "token") httpx_AsyncClient
            (fun org_chunk => emit (OrganizationChunk org_chunk))
            (JStr "https://your_subdomain.zendesk.com/api/v2/organizations.json")
            (initial [page_reply [("organizations", JList [record_of_id 1]);
                                  ("next_page", JInt 2)]%string;
                      page_reply []]))
    with (Returned (JInt 2),
          {| script := [page_reply []];
             requests := [{| url := organizations_url; authorization := "Bearer token" |}];
             emitted := [organization_of_id "1"] |}).
  apply Horg.
Defined.

(** ** An authenticated GET *)

(** X10: [_get_with_auth] on a reply: the request is sent with the bearer
    token and the reply is used up, whatever follows; the status is looked
    at before the body, so a reply that is not a success raises
    [HTTPStatusError] whatever its body, a success whose body is not JSON
    raises the decoding error, and the decoded body is returned in the one
    remaining case. *)
Theorem get_with_auth_checks_status_first :
  forall (self : ZendeskSource) (client : AsyncClient) (u : string) (w : world)
         (r : Response) (rest : list reply),
    script w = Reply r :: rest ->
    snd (_get_with_auth self client (JStr u) w) =
    {| script := rest;
       requests := requests w ++ [{| url := u;
                                     authorization := ("Bearer " ++ access_token self)%string |}];
       emitted := emitted w |} /\
    (forall v, fst (_get_with_auth self client (JStr u) w) = Returned v <->
               is_success (status_code r) = true /\ content r = Some v) /\
    (is_success (status_code r) = false ->
     fst (_get_with_auth self client (JStr u) w) = Raised (HTTPStatusError (status_code r))) /\
    (is_success (status_code r) = true -> content r = None ->
     fst (_get_with_auth self client (JStr u) w) = Raised JSONDecodeError).
Proof.
  intros self client u w r rest Hs.
  rewrite (get_with_auth_reply _ _ _ _ _ _ Hs). simpl.
  split; [reflexivity|].
  destruct (is_success (status_code r)); [destruct (content r) as [v0|]|].
  - split; [|split; discriminate].
    intros v. split; [intros E; now inversion E | intros [_ E]; now inversion E].
  - split; [|split; [discriminate | reflexivity]].
    intros v. split; [discriminate | intros [_ E]; discriminate].
  - split; [|split; [reflexivity | discriminate]].
    intros v. split; [discriminate | intros [E _]; discriminate].
Qed.

Lemma get_with_auth_checks_status_first_witness :
  fst (_get_with_auth (create "token") httpx_AsyncClient (JStr organizations_url)
         (initial [Reply {| status_code := 500; content := None |}])) =
  Raised (HTTPStatusError 500).
Proof.
  destruct (get_with_auth_checks_status_first (create "token") httpx_AsyncClient
              organizations_url (initial [Reply {| status_code := 500; content := None |}])
              _ [] eq_refl) as [_ [_ [H _]]].
  exact (H eq_refl).
Defined.

(** ** Invariants of a run *)

Lemma triple_conseq {A} (P P' Q Q' : world -> Prop) (H H' : halt -> world -> Prop) (m : M A) :
  (forall w, P' w -> P w) -> (forall w, Q w -> Q' w) -> (forall h w, H h w -> H' h w) ->
  triple P m Q H -> triple P' m Q' H'.
Proof.
  intros HP HQ HH Hm w Hw. specialize (Hm w (HP w Hw)).
  destruct (m w) as [[a | e | | ] w']; auto.
Qed.

Lemma triple_ret {A} (P : world -> Prop) H (a : A) : triple P (ret a) P H.
Proof. intros w Hw. exact Hw. Qed.

Lemma triple_raise {A} (P Q : world -> Prop) (H : halt -> world -> Prop) e :
  (forall w, P w -> H (Raises e) w) -> triple P (@raise A e) Q H.
Proof. intros HP w Hw. apply HP, Hw. Qed.

Lemma triple_lift {A} (P : world -> Prop) (H : halt -> world -> Prop) (r : result A) :
  (forall e w, P w -> H (Raises e) w) -> triple P (lift r) P H.
Proof. intros HP. destruct r; [apply triple_ret | apply triple_raise, HP]. Qed.

Lemma triple_bind {A B} (P Q R : world -> Prop) H (m : M A) (f : A -> M B) :
  triple P m Q H -> (forall a, triple Q (f a) R H) -> triple P (bind m f) R H.
Proof.
  intros Hm Hf w Hw. unfold bind. specialize (Hm w Hw).
  destruct (m w) as [[a | e | | ] w']; auto. apply Hf, Hm.
Qed.

Lemma triple_for_in {A} (I : world -> Prop) H (items : list A) body :
  (forall x, triple I (body x) I H) -> triple I (for_in items body) I H.
Proof.
  intros Hb. induction items as [|x rest IH]; simpl.
  - apply triple_ret.
  - eapply triple_bind; eauto.
Qed.

Lemma triple_while (I : world -> Prop) (H : halt -> world -> Prop) fuel u body :
  (forall w, I w -> H Spins w) ->
  (forall v, triple I (body v) I H) ->
  triple I (while_url fuel u body) I H.
Proof.
  intros Hs Hb. revert u. induction fuel as [|fuel IH]; intros u; simpl.
  - destruct (truthy u); [|apply triple_ret]. intros w Hw. apply Hs, Hw.
  - destruct (truthy u); [|apply triple_ret]. eapply triple_bind; eauto.
Qed.

(** What follows the GET in a loop body keeps an invariant that the
    consumer's body keeps. *)
Lemma triple_page_rest {C} (I : world -> Prop) (H : halt -> world -> Prop) key
    (build : json -> result C) yield_ data :
  (forall e w, I w -> H (Raises e) w) ->
  (forall c, triple I (yield_ c) I H) ->
  triple I (records <- lift (py_get data key (JList [])) ;;
            items <- lift (py_iter records) ;;
            for_in items (fun record => c <- lift (build record) ;; yield_ c) ;;
            lift (py_get data "next_page" JNull))%gen I H.
Proof.
  intros Hr Hy.
  eapply triple_bind; [apply triple_lift, Hr|]. intros records.
  eapply triple_bind; [apply triple_lift, Hr|]. intros items.
  eapply triple_bind; [|intros _; apply triple_lift, Hr].
  apply triple_for_in. intros record.
  eapply triple_bind; [apply triple_lift, Hr | apply Hy].
Qed.

Lemma triple_paginate {C} (I : world -> Prop) (H : halt -> world -> Prop) self client key
    (build : json -> result C) yield_ u :
  (forall e w, I w -> H (Raises e) w) ->
  triple I (_get_with_auth self client u) I H ->
  (forall c, triple I (yield_ c) I H) ->
  triple I (paginate self client key build yield_ u) I H.
Proof.
  intros Hr Hg Hy. unfold paginate.
  eapply triple_bind; [exact Hg|]. intros data. now apply triple_page_rest.
Qed.

(** An invariant kept by every GET and every [yield] is kept by the run. *)
Lemma triple_generate_chunks (I : world -> Prop) (H : halt -> world -> Prop) self fuel :
  (forall e w, I w -> H (Raises e) w) ->
  (forall w, I w -> H Spins w) ->
  (forall u, triple I (_get_with_auth self httpx_AsyncClient u) I H) ->
  (forall c, triple I (emit c) I H) ->
  triple I (generate_chunks self fuel) I H.
Proof.
  intros Hr Hs Hg He. rewrite generate_chunks_unfold.
  eapply triple_bind; [|intros _; eapply triple_bind; [|intros _]].
  - apply triple_while; auto. intros u. rewrite organizations_page_paginate.
    apply triple_paginate; auto.
  - apply triple_while; auto. intros u. rewrite users_page_paginate.
    apply triple_paginate; auto.
  - apply triple_while; auto. intros u. rewrite tickets_page_paginate.
    apply triple_paginate; auto. intros t.
    eapply triple_bind; [apply He|]. intros _.
    apply triple_while; auto. intros u'. rewrite comments_page_paginate.
    apply triple_paginate; auto.
Qed.

Lemma get_with_auth_world self client u w :
  snd (_get_with_auth self client u w) =
  match u with
  | JStr s => sent self s w (tl (script w))
  | _ => w
  end.
Proof.
  destruct u as [| b | n | t | s | l | f]; try reflexivity.
  destruct (script w) as [|[r|] rest] eqn:Hs.
  - unfold _get_with_auth, bind, client_get. rewrite Hs. reflexivity.
  - rewrite (get_with_auth_reply _ _ _ _ _ _ Hs). reflexivity.
  - unfold _get_with_auth, bind, client_get. rewrite Hs. reflexivity.
Qed.

Lemma get_with_auth_awaiting self client u w :
  fst (_get_with_auth self client u w) = Awaiting <->
  (exists s, u = JStr s) /\ script w = [].
Proof.
  destruct u as [| b | n | t | s | l | f];
    try (split; [discriminate | intros [[s0 E] _]; discriminate]).
  destruct (script w) as [|[r|] rest] eqn:Hs.
  - unfold _get_with_auth, bind, client_get. rewrite Hs. simpl. split; eauto.
  - rewrite (get_with_auth_reply _ _ _ _ _ _ Hs). simpl.
    split; [|intros [_ E]; discriminate].
    destruct (is_success _); [destruct (content r)|]; discriminate.
  - unfold _get_with_auth, bind, client_get. rewrite Hs. simpl.
    split; [discriminate | intros [_ E]; discriminate].
Qed.

(** A fact of the world after a GET, whatever its outcome. *)
Lemma triple_get_snd (P Q : world -> Prop) self client u :
  (forall w, P w -> Q (snd (_get_with_auth self client u w))) ->
  triple P (_get_with_auth self client u) Q (fun _ => Q).
Proof.
  intros Hq w Hw. specialize (Hq w Hw).
  destruct (_get_with_auth self client u w) as [[a | e | | ] w']; exact Hq.
Qed.

Lemma authorized_run self fuel :
  triple (authorized self) (generate_chunks self fuel) (authorized self)
    (fun _ => authorized self).
Proof.
  apply triple_generate_chunks; auto.
  - intros u. apply triple_get_snd. intros w Hw. rewrite get_with_auth_world.
    destruct u; auto. unfold authorized, sent. simpl.
    apply Forall_app. split; [exact Hw | repeat constructor].
  - intros c w Hw. exact Hw.
Qed.

(** X11: every request of a run, to whichever resource and page, carries
    the header [Authorization: Bearer <access_token>] of the instance. *)
Theorem every_request_authorized :
  forall (self : ZendeskSource) (fuel : nat) (replies : list reply),
    Forall (fun rq => authorization rq = ("Bearer " ++ access_token self)%string)
      (requests (snd (run self fuel replies))).
Proof.
  intros self fuel replies.
  pose proof (authorized_run self fuel (initial replies)) as H.
  unfold run. destruct (generate_chunks self fuel (initial replies)) as [[[] | e | | ] w'];
    apply H; constructor.
Qed.

Lemma while_url_unfold fuel u body :
  truthy u = true ->
  while_url (S fuel) u body = (url' <- body u ;; while_url fuel url' body)%gen.
Proof. intros H. simpl. now rewrite H. Qed.

Lemma triple_loop {C} (I : world -> Prop) (H : halt -> world -> Prop) self client key
    (build : json -> result C) yield_ fuel u :
  (forall e w, I w -> H (Raises e) w) ->
  (forall w, I w -> H Spins w) ->
  (forall v, triple I (_get_with_auth self client v) I H) ->
  (forall c, triple I (yield_ c) I H) ->
  triple I (while_url fuel u (paginate self client key build yield_)) I H.
Proof.
  intros Hr Hs Hg Hy. apply triple_while; auto. intros v. apply triple_paginate; auto.
Qed.

(** The first turn of a loop that starts from a str: the GET takes the
    world from [P] to [I], and [I] is kept from there on. *)
Lemma triple_loop_first {C} (P I : world -> Prop) self client key
    (build : json -> result C) yield_ fuel s :
  truthy (JStr s) = true ->
  (forall w, P w -> I (sent self s w (tl (script w)))) ->
  (forall v, triple I (_get_with_auth self client v) I (fun _ => I)) ->
  (forall c, triple I (yield_ c) I (fun _ => I)) ->
  triple P (while_url (S fuel) (JStr s) (paginate self client key build yield_)) I
    (fun _ => I).
Proof.
  intros Hs Hp Hg Hy. rewrite while_url_unfold by assumption.
  eapply triple_bind; [|intros v; apply triple_loop; auto].
  unfold paginate. eapply triple_bind; [|intros data; apply triple_page_rest; auto].
  apply triple_get_snd. intros w Hw. rewrite get_with_auth_world. auto.
Qed.

(** *** Where a run starts *)

Lemma begins_with_kept first self client v :
  triple (begins_with first) (_get_with_auth self client v) (begins_with first)
    (fun _ => begins_with first).
Proof.
  apply triple_get_snd. intros w [later E]. rewrite get_with_auth_world.
  destruct v; try (exists later; exact E).
  exists (later ++ [{| url := s; authorization := ("Bearer " ++ access_token self)%string |}]).
  simpl. now rewrite E.
Qed.

Lemma begins_with_emit first c :
  triple (begins_with first) (emit c) (begins_with first) (fun _ => begins_with first).
Proof. intros w Hw. exact Hw. Qed.

(** X13: a run with fuel for one turn at least begins with a GET of the
    organizations listing, whatever the remote answers: nothing is asked
    of the users or the tickets before it. *)
Theorem run_begins_with_organizations :
  forall (self : ZendeskSource) (fuel : nat) (replies : list reply),
  exists later,
    requests (snd (run self (S fuel) replies)) =
    {| url := "https://your_subdomain.zendesk.com/api/v2/organizations.json";
       authorization := ("Bearer " ++ access_token self)%string |} :: later.
Proof.
  intros self fuel replies.
  set (first := {| url := "https://your_subdomain.zendesk.com/api/v2/organizations.json"%string;
                   authorization := ("Bearer " ++ access_token self)%string |}).
  assert (Hrun : triple (fun w => requests w = []) (generate_chunks self (S fuel))
                   (begins_with first) (fun _ => begins_with first)).
  { rewrite generate_chunks_unfold.
    eapply triple_bind; [|intros _; eapply triple_bind; [|intros _]].
    - unfold _generate_organization_chunks. rewrite organizations_page_paginate.
      apply triple_loop_first.
      + reflexivity.
      + intros w Hw. exists []. simpl. now rewrite Hw.
      + intros v. apply begins_with_kept.
      + intros c. apply begins_with_emit.
    - unfold _generate_user_chunks. rewrite users_page_paginate.
      apply triple_loop; auto using begins_with_kept, begins_with_emit.
    - unfold _generate_ticket_chunks. rewrite tickets_page_paginate.
      apply triple_loop; auto using begins_with_kept. intros t.
      eapply triple_bind; [apply begins_with_emit|]. intros _.
      unfold _generate_comment_chunks. rewrite comments_page_paginate.
      apply triple_loop; auto using begins_with_kept, begins_with_emit. }
  specialize (Hrun (initial replies) eq_refl). unfold run.
  destruct (generate_chunks self (S fuel) (initial replies)) as [[[] | e | | ] w'];
    exact Hrun.
Qed.

(** *** The comments of every ticket are asked for *)

Lemma comments_requested_get excepted self client v :
  triple (comments_requested excepted) (_get_with_auth self client v)
    (comments_requested excepted) (fun _ => comments_requested excepted).
Proof.
  apply triple_get_snd. intros w Hw. rewrite get_with_auth_world.
  destruct v; try exact Hw.
  intros t Ht. destruct (Hw t Ht) as [H | H]; [now left | right].
  simpl. rewrite map_app. apply in_or_app. now left.
Qed.

Lemma comments_requested_emit c :
  is_ticket c = false ->
  triple (comments_requested None) (emit c) (comments_requested None)
    (fun _ => comments_requested None).
Proof.
  intros Hc w Hw t Ht. simpl in Ht. apply in_app_or in Ht.
  destruct Ht as [Ht | [Ht | []]]; [now apply Hw | subst c; discriminate].
Qed.

Lemma comments_requested_block self fuel client t :
  triple (comments_requested None) (ticket_and_comments self (S fuel) client t)
    (comments_requested None) (fun _ => comments_requested None).
Proof.
  unfold ticket_and_comments.
  eapply triple_bind with (Q := comments_requested (Some (ZendeskTicketChunk.entity_id t))).
  - intros w Hw t' Ht'. simpl in Ht'. apply in_app_or in Ht'.
    destruct Ht' as [Ht' | [Ht' | []]].
    + destruct (Hw t' Ht') as [H | H]; [discriminate | now right].
    + inversion Ht'. now left.
  - intros _. unfold _generate_comment_chunks. rewrite comments_page_paginate.
    apply triple_loop_first.
    + reflexivity.
    + intros w Hw t' Ht'. right. destruct (Hw t' Ht') as [H | H].
      * inversion H as [H']. simpl. rewrite map_app. apply in_or_app. right.
        simpl. left. unfold comments_url. now rewrite H'.
      * simpl. rewrite map_app. apply in_or_app. now left.
    + intros v. apply comments_requested_get.
    + intros c. now apply comments_requested_emit.
Qed.

(** X14: with fuel for one turn at least, the comments of every ticket
    chunk a run yields are asked for, ticket by ticket: the listing
    [tickets/<entity_id>/comments.json] of each is among the requests
    sent. *)
Theorem comments_of_every_ticket_requested :
  forall (self : ZendeskSource) (fuel : nat) (replies : list reply)
         (t : ZendeskTicketChunk.t),
    In (TicketChunk t) (emitted (snd (run self (S fuel) replies))) ->
    In ("https://your_subdomain.zendesk.com/api/v2/tickets/"
          ++ ZendeskTicketChunk.entity_id t ++ "/comments.json")%string
       (map url (requests (snd (run self (S fuel) replies)))).
Proof.
  intros self fuel replies t Ht.
  assert (Hrun : triple (comments_requested None) (generate_chunks self (S fuel))
                   (comments_requested None) (fun _ => comments_requested None)).
  { rewrite generate_chunks_unfold.
    eapply triple_bind; [|intros _; eapply triple_bind; [|intros _]].
    - unfold _generate_organization_chunks. rewrite organizations_page_paginate.
      apply triple_loop; auto using comments_requested_get.
      intros c. now apply comments_requested_emit.
    - unfold _generate_user_chunks. rewrite users_page_paginate.
      apply triple_loop; auto using comments_requested_get.
      intros c. now apply comments_requested_emit.
    - unfold _generate_ticket_chunks. rewrite tickets_page_paginate.
      apply triple_loop; auto using comments_requested_get.
      intros c. apply comments_requested_block. }
  assert (H0 : comments_requested None (initial replies)) by (intros t' []).
  specialize (Hrun (initial replies) H0). unfold run in *.
  destruct (generate_chunks self (S fuel) (initial replies)) as [[[] | e | | ] w'];
    simpl in *; (destruct (Hrun t Ht) as [H | H]; [discriminate | exact H]).
Qed.

Lemma comments_of_every_ticket_requested_witness :
  In "https://your_subdomain.zendesk.com/api/v2/tickets/43/comments.json"%string
     (map url (requests (snd (run (create "token") 7 ticket_42_replies)))).
Proof.
  apply (comments_of_every_ticket_requested (create "token") 6 ticket_42_replies
           (ticket_of_id "43")).
  simpl. auto 10.
Defined.

(** ** A walk to the end *)

Lemma for_in_emit_all {C} (build : json -> result C) (wrap : C -> BaseChunk) items chunks w :
  Forall2 (fun record c => build record = Ok c) items chunks ->
  for_in items (fun record => c <- lift (build record) ;; emit (wrap c)) w =
  (Returned tt,
   {| script := script w; requests := requests w; emitted := emitted w ++ map wrap chunks |}).
Proof.
  intros H. revert w. induction H as [|record c items chunks Hc H IH]; intros w; simpl.
  - rewrite app_nil_r. destruct w; reflexivity.
  - unfold bind at 1. unfold bind at 1. rewrite Hc. simpl.
    rewrite IH. simpl. rewrite <- app_assoc. reflexivity.
Qed.

Lemma paginate_emit_all {C} self client key (build : json -> result C) wrap
    u w body rest items chunks :
  script w = page_reply body :: rest ->
  py_iter (get_or body key (JList [])) = Ok items ->
  Forall2 (fun record c => build record = Ok c) items chunks ->
  paginate self client key build (fun c => emit (wrap c)) (JStr u) w =
  (Returned (get_or body "next_page" JNull),
   {| script := rest;
      requests := requests w ++ gets self [u];
      emitted := emitted w ++ map wrap chunks |}).
Proof.
  intros Hs Hi Hb.
  rewrite (paginate_reply _ _ _ _ _ _ _ _ _ _ Hs eq_refl eq_refl).
  unfold bind at 1. rewrite Hi. simpl. unfold bind at 1.
  rewrite (for_in_emit_all build wrap items chunks _ Hb). reflexivity.
Qed.

Lemma while_paginate_walked {C} self client key (build : json -> result C) wrap
    u pages urls chunks :
  walked key build u pages urls chunks ->
  truthy (JStr u) = true ->
  forall fuel w rest,
    (List.length pages <= fuel)%nat ->
    script w = map page_reply pages ++ rest ->
    while_url fuel (JStr u) (paginate self client key build (fun c => emit (wrap c))) w =
    (Returned tt,
     {| script := rest;
        requests := requests w ++ gets self urls;
        emitted := emitted w ++ map wrap chunks |}).
Proof.
  induction 1 as [u body items chunks Hi Hb Hn
                 | u body items chunks next more urls chunks' Hi Hb Hn Ht Hw IH];
    intros Hu fuel w rest Hf Hs; simpl in Hf, Hs.
  - destruct fuel as [|fuel]; [lia|]. rewrite while_url_step by assumption.
    unfold bind. rewrite (paginate_emit_all _ _ _ _ _ _ _ _ _ _ _ Hs Hi Hb).
    now rewrite while_url_falsy.
  - destruct fuel as [|fuel]; [lia|]. rewrite while_url_step by assumption.
    unfold bind. rewrite (paginate_emit_all _ _ _ _ _ _ _ _ _ _ _ Hs Hi Hb), Hn.
    rewrite (IH Ht fuel _ rest); [|lia|reflexivity].
    simpl. unfold gets. simpl. rewrite map_app, <- !app_assoc. reflexivity.
Qed.

(** X15: a generator walks its pages to the end.  Given the bodies of a
    walk, each linked to the next by a non-empty [next_page] and the last
    with none, whose records all have what a chunk needs, and fuel for as
    many turns, the generator returns having sent one GET per page, in
    order, and yielded one chunk per record, in the order of the pages and
    of the records in each page; replies beyond the walk are left. *)
Theorem walk_yields_every_record :
  forall (self : ZendeskSource) (client : AsyncClient) (fuel : nat)
         (pages : list (list (string * json))) (urls : list string)
         (w : world) (rest : list reply),
    (List.length pages <= fuel)%nat ->
    script w = map page_reply pages ++ rest ->
    (forall chunks,
       walked "organizations" organization_chunk
         "https://your_subdomain.zendesk.com/api/v2/organizations.json" pages urls chunks ->
       _generate_organization_chunks self fuel client
         (fun org_chunk => emit (OrganizationChunk org_chunk)) w =
       (Returned tt,
        {| script := rest;
           requests := requests w ++ gets self urls;
           emitted := emitted w ++ map OrganizationChunk chunks |})) /\
    (forall chunks,
       walked "users" user_chunk
         "https://your_subdomain.zendesk.com/api/v2/users.json" pages urls chunks ->
       _generate_user_chunks self fuel client
         (fun user_chunk => emit (UserChunk user_chunk)) w =
       (Returned tt,
        {| script := rest;
           requests := requests w ++ gets self urls;
           emitted := emitted w ++ map UserChunk chunks |})) /\
    (forall ticket_id chunks,
       walked "comments" (comment_chunk ticket_id) (comments_url ticket_id) pages urls chunks ->
       _generate_comment_chunks self fuel client ticket_id
         (fun comment_chunk => emit (CommentChunk comment_chunk)) w =
       (Returned tt,
        {| script := rest;
           requests := requests w ++ gets self urls;
           emitted := emitted w ++ map CommentChunk chunks |})).
Proof.
  intros self client fuel pages urls w rest Hf Hs. repeat split.
  - intros chunks Hw. unfold _generate_organization_chunks.
    rewrite organizations_page_paginate.
    eapply while_paginate_walked; eauto.
  - intros chunks Hw. unfold _generate_user_chunks. rewrite users_page_paginate.
    eapply while_paginate_walked; eauto.
  - intros ticket_id chunks Hw. unfold _generate_comment_chunks.
    rewrite comments_page_paginate.
    eapply (while_paginate_walked self client "comments" (comment_chunk ticket_id)
              CommentChunk (comments_url ticket_id)); eauto.
Qed.

Lemma walk_yields_every_record_witness :
  _generate_organization_chunks (create "token") 2 httpx_AsyncClient
    (fun org_chunk => emit (OrganizationChunk org_chunk))
    (initial two_organization_pages) =
  (Returned tt,
   {| script := [];
      requests := gets (create "token")
                    [organizations_url; "https://your_subdomain.zendesk.com/page2"%string];
      emitted := [organization_of_id "1"; organization_of_id "2"] |}).
Proof.
  destruct (walk_yields_every_record (create "token") httpx_AsyncClient 2
              [[("organizations", JList [record_of_id 1]);
                ("next_page", JStr "https://your_subdomain.zendesk.com/page2")];
               [("organizations", JList [record_of_id 2]); ("next_page", JNull)]]%string
              [organizations_url; "https://your_subdomain.zendesk.com/page2"%string]
              (initial two_organization_pages) []
              (le_n 2) eq_refl) as [Horg _].
  apply (Horg ([_] ++ [_])).
  eapply walked_next;
    [reflexivity | constructor; [reflexivity | constructor] | reflexivity | reflexivity |].
  eapply walked_last; [reflexivity | constructor; [reflexivity | constructor] | reflexivity].
Defined.

(** ** Failures of the transport and of the decoding *)

Section Fatal.
Variables (bad : reply) (e : exn).
Hypothesis bad_raises :
  forall self client u w rest,
    script w = bad :: rest ->
    _get_with_auth self client (JStr u) w = (Raised e, sent self u w rest).

Lemma fatal_of_extensible {A} (m : M A) :
  extensible m ->
  (forall w more w', m w = (Awaiting, w') ->
     m (with_script w (script w ++ bad :: more)) = (Raised e, with_script w' more)) ->
  fatal bad e m.
Proof.
  intros Hx Ha w more. pose proof (Hx w more) as H. pose proof (Ha w more) as H'.
  destruct (m w) as [[a | e' | | ] w']; auto.
Qed.

Lemma fatal_ret {A} (a : A) : fatal bad e (ret a).
Proof. apply fatal_of_extensible; [apply extensible_ret | discriminate]. Qed.

Lemma fatal_lift {A} (r : result A) : fatal bad e (lift r).
Proof.
  apply fatal_of_extensible; [apply extensible_lift | destruct r; discriminate].
Qed.

Lemma fatal_emit c : fatal bad e (emit c).
Proof. apply fatal_of_extensible; [apply extensible_emit | discriminate]. Qed.

Lemma fatal_bind {A B} (m : M A) (f : A -> M B) :
  fatal bad e m -> (forall a, fatal bad e (f a)) -> fatal bad e (bind m f).
Proof.
  intros Hm Hf w more. unfold bind.
  pose proof (Hm w) as Hw.
  destruct (m w) as [[a | e' | | ] w1].
  - pose proof (Hf a w1 more) as Hw1.
    destruct (f a w1) as [[b | e' | | ] w2].
    + rewrite (Hw more). exact Hw1.
    + rewrite (Hw more). exact Hw1.
    + rewrite (Hw (bad :: more)). exact Hw1.
    + rewrite (Hw more). exact Hw1.
  - now rewrite (Hw more).
  - now rewrite (Hw more).
  - now rewrite (Hw more).
Qed.

Lemma fatal_for_in {A} (items : list A) body :
  (forall x, fatal bad e (body x)) -> fatal bad e (for_in items body).
Proof.
  intros Hb. induction items as [|x rest IH]; simpl.
  - apply fatal_ret.
  - apply fatal_bind; auto.
Qed.

Lemma fatal_while fuel u body :
  (forall v, fatal bad e (body v)) -> fatal bad e (while_url fuel u body).
Proof.
  intros Hb. revert u. induction fuel as [|fuel IH]; intros u; simpl.
  - destruct (truthy u); [|apply fatal_ret].
    intros w more. reflexivity.
  - destruct (truthy u); [|apply fatal_ret].
    apply fatal_bind; auto.
Qed.

Lemma fatal_get_with_auth self client u : fatal bad e (_get_with_auth self client u).
Proof.
  apply fatal_of_extensible; [apply extensible_get_with_auth|].
  intros w more w' Hw.
  pose proof (get_with_auth_awaiting self client u w) as Ha.
  pose proof (get_with_auth_world self client u w) as Hs.
  rewrite Hw in Ha, Hs. simpl in Ha, Hs.
  destruct (proj1 Ha eq_refl) as [[s ->] Hnil]. subst w'. rewrite Hnil.
  rewrite (bad_raises self client s (with_script w ([] ++ bad :: more)) more eq_refl).
  reflexivity.
Qed.

Lemma fatal_loop {C} self client key (build : json -> result C) yield_ fuel u :
  (forall c, fatal bad e (yield_ c)) ->
  fatal bad e (while_url fuel u (paginate self client key build yield_)).
Proof.
  intros Hy. apply fatal_while. intros v. unfold paginate.
  apply fatal_bind; [apply fatal_get_with_auth|]. intros data.
  apply fatal_bind; [apply fatal_lift|]. intros records.
  apply fatal_bind; [apply fatal_lift|]. intros items.
  apply fatal_bind; [|intros _; apply fatal_lift].
  apply fatal_for_in. intros record.
  apply fatal_bind; [apply fatal_lift | apply Hy].
Qed.

Lemma fatal_generate_chunks self fuel : fatal bad e (generate_chunks self fuel).
Proof.
  rewrite generate_chunks_unfold.
  apply fatal_bind; [|intros _; apply fatal_bind; [|intros _]].
  - unfold _generate_organization_chunks. rewrite organizations_page_paginate.
    apply fatal_loop. intros c. apply fatal_emit.
  - unfold _generate_user_chunks. rewrite users_page_paginate.
    apply fatal_loop. intros c. apply fatal_emit.
  - unfold _generate_ticket_chunks. rewrite tickets_page_paginate.
    apply fatal_loop. intros t.
    apply fatal_bind; [apply fatal_emit|]. intros _.
    unfold _generate_comment_chunks. rewrite comments_page_paginate.
    apply fatal_loop. intros c. apply fatal_emit.
Qed.
End Fatal.

(** X16: a failure of the transport, and a success whose body is not
    JSON, end the run as a bad status does.  When the GET a run is waiting
    in fails to connect, the run raises the transport error; when it is
    answered by a success that cannot be decoded, the run raises the
    decoding error.  Either way the chunks and the requests are those the
    run had at that GET, and the replies after it are never asked for. *)
Theorem transport_or_decoding_failure_aborts_run :
  forall (self : ZendeskSource) (fuel : nat) (before after : list reply),
    fst (run self fuel before) = Awaiting ->
    run self fuel (before ++ ConnectError :: after) =
    (Raised RequestError,
     {| script := after;
        requests := requests (snd (run self fuel before));
        emitted := emitted (snd (run self fuel before)) |}) /\
    (forall r, is_success (status_code r) = true -> content r = None ->
       run self fuel (before ++ Reply r :: after) =
       (Raised JSONDecodeError,
        {| script := after;
           requests := requests (snd (run self fuel before));
           emitted := emitted (snd (run self fuel before)) |})).
Proof.
  intros self fuel before after Hw. unfold run in *. split.
  - assert (Hb : forall self client u w rest,
               script w = ConnectError :: rest ->
               _get_with_auth self client (JStr u) w = (Raised RequestError, sent self u w rest)).
    { intros s c u w rest Hs. unfold _get_with_auth, bind, client_get. now rewrite Hs. }
    pose proof (fatal_generate_chunks ConnectError RequestError Hb self fuel
                  (initial before) after) as H.
    destruct (generate_chunks self fuel (initial before)) as [o w']. simpl in Hw. subst o.
    exact H.
  - intros r Hok Hc.
    assert (Hb : forall self client u w rest,
               script w = Reply r :: rest ->
               _get_with_auth self client (JStr u) w = (Raised JSONDecodeError, sent self u w rest)).
    { intros s c u w rest Hs. now rewrite (get_with_auth_reply _ _ _ _ _ _ Hs), Hok, Hc. }
    pose proof (fatal_generate_chunks (Reply r) JSONDecodeError Hb self fuel
                  (initial before) after) as H.
    destruct (generate_chunks self fuel (initial before)) as [o w']. simpl in Hw. subst o.
    exact H.
Qed.

Lemma transport_or_decoding_failure_aborts_run_witness :
  run (create "token") 7 (firstn 4 ticket_42_replies ++ ConnectError :: [page_reply []]) =
  (Raised RequestError,
   {| script := [page_reply []];
      requests := requests (snd (run (create "token") 7 (firstn 4 ticket_42_replies)));
      emitted := [TicketChunk (ticket_of_id "42");
                  CommentChunk (comment_of_id "100" "42");
                  CommentChunk (comment_of_id "101" "42")] |}).
Proof.
  exact (proj1 (transport_or_decoding_failure_aborts_run (create "token") 7
                  (firstn 4 ticket_42_replies) [page_reply []] eq_refl)).
Defined.

(** * The whole run *)

(** ** Tags of every chunk *)

Lemma tagged_from_record record c : chunk_of_record record c -> tagged_from record c.
Proof.
  intros H.
  assert (Hd : exists d, record = JObj d).
  { destruct c as [o | u | t | m]; simpl in H.
    - eapply organization_chunk_Ok; eauto.
    - eapply user_chunk_Ok; eauto.
    - eapply ticket_chunk_Ok; eauto.
    - destruct H as [tid H]. eapply comment_chunk_Ok; eauto. }
  destruct Hd as [d ->].
  assert (Hid : forall id, entity_id c = py_str id ->
                  dict_get "id" d = Some id ->
                  source_name c = "zendesk"%string -> archived c = false ->
                  tagged_from (JObj d) c).
  { intros id He Hi Hs Ha. repeat split; auto. exists id. simpl. rewrite Hi.
    repeat split; auto. intros n ->. exact He. }
  destruct c as [o | u | t | m]; simpl in H.
  - rewrite organization_chunk_obj in H.
    destruct (dict_get "id" d) as [id|] eqn:E; [|discriminate].
    inversion H; subst o. now apply (Hid id).
  - rewrite user_chunk_obj in H.
    destruct (dict_get "id" d) as [id|] eqn:E; [|discriminate].
    inversion H; subst u. now apply (Hid id).
  - rewrite ticket_chunk_obj in H.
    destruct (dict_get "id" d) as [id|] eqn:E; [|discriminate].
    inversion H; subst t. now apply (Hid id).
  - destruct H as [tid H]. rewrite comment_chunk_obj in H.
    destruct (dict_get "id" d) as [id|] eqn:E; [|discriminate].
    inversion H; subst m. now apply (Hid id).
Qed.

Lemma triple_for_in_In {A} (I : world -> Prop) H (items : list A) body :
  (forall x, In x items -> triple I (body x) I H) -> triple I (for_in items body) I H.
Proof.
  induction items as [|x rest IH]; intros Hb; simpl.
  - apply triple_ret.
  - eapply triple_bind; [apply Hb; now left|].
    intros _. apply IH. intros y Hy. apply Hb. now right.
Qed.

Lemma traceable_sent replies self u w rest x :
  script w = x :: rest -> traceable replies w -> traceable replies (sent self u w rest).
Proof.
  intros Hs [[used E] Hg]. split; [|exact Hg].
  exists (used ++ [x]). simpl. rewrite <- app_assoc. now rewrite Hs in E.
Qed.

Lemma traceable_emit replies c :
  built_from_replies replies c ->
  triple (traceable replies) (emit c) (traceable replies) (fun _ => traceable replies).
Proof.
  intros Hc w [Hu Hg]. split; [exact Hu|]. simpl.
  apply Forall_app. split; [exact Hg | now constructor].
Qed.

(** A page keeps the chunks traceable when the consumer's body does, for
    the chunks built from the records of that page. *)
Lemma traceable_paginate {C} replies self client key (build : json -> result C) yield_ u :
  (forall record c,
      served_record replies key record -> build record = Ok c ->
      triple (traceable replies) (yield_ c) (traceable replies) (fun _ => traceable replies)) ->
  triple (traceable replies) (paginate self client key build yield_ u) (traceable replies)
    (fun _ => traceable replies).
Proof.
  intros Hy w Hw.
  destruct u as [| b | n | t | s | l | f];
    try (rewrite paginate_url_not_str by discriminate; exact Hw).
  destruct (script w) as [|[r|] rest] eqn:Hs.
  - assert (E : paginate self client key build yield_ (JStr s) w = (Awaiting, sent self s w [])).
    { unfold paginate, bind, _get_with_auth, bind, client_get. rewrite Hs. reflexivity. }
    rewrite E. destruct Hw as [[used Hu] Hg]. split; [|exact Hg].
    exists used. simpl. now rewrite Hs in Hu.
  - pose proof (traceable_sent replies self s w rest _ Hs Hw) as Hw'.
    destruct (is_success (status_code r)) eqn:Hok.
    + destruct (content r) as [v|] eqn:Hc.
      * destruct v as [| b | n | t | s0 | l | data];
          try (rewrite (paginate_body_not_dict _ _ _ _ _ _ _ _ _ _ Hs Hok Hc)
                by discriminate; exact Hw').
        rewrite (paginate_reply _ _ _ _ _ _ _ _ _ _ Hs Hok Hc).
        assert (Hin : In (Reply r) replies).
        { destruct Hw as [[used Hu] _]. rewrite Hu, Hs. apply in_or_app. right. now left. }
        destruct (py_iter (get_or data key (JList []))) as [items | e] eqn:Hi;
          [|exact Hw'].
        assert (Hrest : triple (traceable replies)
                          (for_in items (fun record => c <- lift (build record) ;; yield_ c) ;;
                           ret (get_or data "next_page" JNull))%gen
                          (traceable replies) (fun _ => traceable replies)).
        { eapply triple_bind; [|intros _; apply triple_ret].
          apply triple_for_in_In. intros record Hrec.
          destruct (build record) as [c | e] eqn:Hb.
          - change (triple (traceable replies) (yield_ c) (traceable replies)
                      (fun _ => traceable replies)).
            apply (Hy record); [|exact Hb]. exists r, data, items. auto.
          - intros w0 Hw0. exact Hw0. }
        exact (Hrest _ Hw').
      * assert (E : paginate self client key build yield_ (JStr s) w =
                    (Raised JSONDecodeError, sent self s w rest)).
        { unfold paginate, bind. now rewrite (get_with_auth_reply _ _ _ _ _ _ Hs), Hok, Hc. }
        rewrite E. exact Hw'.
    + assert (E : paginate self client key build yield_ (JStr s) w =
                  (Raised (HTTPStatusError (status_code r)), sent self s w rest)).
      { unfold paginate, bind. now rewrite (get_with_auth_reply _ _ _ _ _ _ Hs), Hok. }
      rewrite E. exact Hw'.
  - assert (E : paginate self client key build yield_ (JStr s) w =
                (Raised RequestError, sent self s w rest)).
    { unfold paginate, bind, _get_with_auth, bind, client_get. rewrite Hs. reflexivity. }
    rewrite E. exact (traceable_sent replies self s w rest _ Hs Hw).
Qed.

Lemma traceable_loop {C} replies self client key (build : json -> result C) yield_ fuel u :
  (forall record c,
      served_record replies key record -> build record = Ok c ->
      triple (traceable replies) (yield_ c) (traceable replies) (fun _ => traceable replies)) ->
  triple (traceable replies) (while_url fuel u (paginate self client key build yield_))
    (traceable replies) (fun _ => traceable replies).
Proof.
  intros Hy. apply triple_while; auto. intros v. now apply traceable_paginate.
Qed.

Lemma built_from_served replies record c :
  served_record replies (record_key c) record -> chunk_of_record record c ->
  built_from_replies replies c.
Proof.
  intros Hr Hc. exists record. split; [exact Hr|]. split; [exact Hc|].
  now apply tagged_from_record.
Qed.

Lemma traceable_run replies self fuel :
  triple (traceable replies) (generate_chunks self fuel) (traceable replies)
    (fun _ => traceable replies).
Proof.
  rewrite generate_chunks_unfold.
  eapply triple_bind; [|intros _; eapply triple_bind; [|intros _]].
  - unfold _generate_organization_chunks. rewrite organizations_page_paginate.
    apply traceable_loop. intros record c Hr Hc. apply traceable_emit.
    now apply (built_from_served replies record).
  - unfold _generate_user_chunks. rewrite users_page_paginate.
    apply traceable_loop. intros record c Hr Hc. apply traceable_emit.
    now apply (built_from_served replies record).
  - unfold _generate_ticket_chunks. rewrite tickets_page_paginate.
    apply traceable_loop. intros record t Hr Ht.
    eapply triple_bind.
    + apply traceable_emit. now apply (built_from_served replies record).
    + intros _. unfold _generate_comment_chunks. rewrite comments_page_paginate.
      apply traceable_loop. intros record' c Hr' Hc. apply traceable_emit.
      apply (built_from_served replies record'); [exact Hr'|]. simpl. eauto.
Qed.

(** C8: whatever record a chunk is built from, the chunk has
    [source_name] ["zendesk"], [archived] false and, for [entity_id] (a
    str, never [None]), the [str] of the [id] of that very record, the
    decimal text when the id is an integer.  And every chunk of every
    run, of whichever kind, is built from a record that the remote gave in
    the record array of its kind, and has these tags from that record. *)
Theorem every_chunk_well_tagged :
  (forall (record : json) (c : BaseChunk),
      chunk_of_record record c -> tagged_from record c) /\
  (forall (self : ZendeskSource) (fuel : nat) (replies : list reply),
      Forall (built_from_replies replies) (emitted (snd (run self fuel replies)))).
Proof.
  split; [exact tagged_from_record|].
  intros self fuel replies.
  assert (H0 : traceable replies (initial replies)).
  { split; [exists []; reflexivity | constructor]. }
  pose proof (traceable_run replies self fuel (initial replies) H0) as H.
  unfold run. destruct (generate_chunks self fuel (initial replies)) as [[[] | e | | ] w'];
    apply H.
Qed.

Lemma every_chunk_well_tagged_witness :
  tagged_from (JObj [("id", JInt 42); ("name", JStr "acme")]%string)
    (OrganizationChunk
       (ZendeskOrganizationChunk.mk "zendesk" "42" (JStr "acme") (JList []) JNull JNull JNull
          JNull JNull (JBool false) (JBool false) JNull false)) /\
  Forall (built_from_replies ticket_42_replies)
    [TicketChunk (ticket_of_id "42");
     CommentChunk (comment_of_id "100" "42");
     CommentChunk (comment_of_id "101" "42");
     CommentChunk (comment_of_id "102" "42");
     TicketChunk (ticket_of_id "43")].
Proof.
  destruct every_chunk_well_tagged as [Hbuild Hrun].
  split.
  - apply Hbuild. reflexivity.
  - exact (Hrun (create "token") 7%nat ticket_42_replies).
Defined.

(** ** A record without [id] ends the run *)

Lemma arrives_while body fuel u w fuel' u' w' :
  arrives body fuel u w fuel' u' w' ->
  while_url fuel u body w = while_url fuel' u' body w'.
Proof.
  induction 1 as [| fuel u w v w1 fuel' u' w' Hu Hb Ha IH]; [reflexivity|].
  rewrite while_url_step by assumption. unfold bind. now rewrite Hb.
Qed.

Lemma for_in_app {A} (a b : list A) body w :
  for_in (a ++ b) body w = (for_in a body ;; for_in b body)%gen w.
Proof.
  revert w. induction a as [|x a IH]; intros w; simpl; [reflexivity|].
  etransitivity; [|symmetry; apply bind_assoc].
  apply bind_ext. intros _ w1. apply IH.
Qed.

Lemma bind_raises {A B} (m : M A) (f : A -> M B) e w w' :
  m w = (Raised e, w') -> bind m f w = (Raised e, w').
Proof. intros H. unfold bind. now rewrite H. Qed.

Lemma bind_returns {A B} (m : M A) (f : A -> M B) a w w1 :
  m w = (Returned a, w1) -> bind m f w = f a w1.
Proof. intros H. unfold bind. now rewrite H. Qed.

Lemma at_record_build_raises {C} self client key (build : json -> result C) consumer
    w u record w_a e f :
  at_record self key build consumer w u record w_a ->
  build record = Err e ->
  while_url (S f) (JStr u) (paginate self client key build consumer) w = (Raised e, w_a).
Proof.
  intros [Hu [r [rest [data [before [after [Hs [Hok [Hc [Hk Hfor]]]]]]]]]] Hb.
  rewrite (while_paginate_abort self client key build consumer u w r rest data
             before record after e f Hu Hs Hok Hc Hk Hb).
  now rewrite (bind_returns _ _ _ _ _ Hfor).
Qed.

Lemma at_record_consumer_raises {C} self client key (build : json -> result C) consumer
    w u record w_a c e w' f :
  at_record self key build consumer w u record w_a ->
  build record = Ok c ->
  consumer c w_a = (Raised e, w') ->
  while_url (S f) (JStr u) (paginate self client key build consumer) w = (Raised e, w').
Proof.
  intros [Hu [r [rest [data [before [after [Hs [Hok [Hc [Hk Hfor]]]]]]]]]] Hb Hcons.
  apply while_raises; [assumption|].
  rewrite (paginate_reply _ _ _ _ _ _ _ _ _ _ Hs Hok Hc).
  unfold get_or at 1. rewrite Hk.
  erewrite bind_returns by reflexivity.
  apply bind_raises. rewrite for_in_app.
  rewrite (bind_returns _ _ _ _ _ Hfor). simpl.
  apply bind_raises. rewrite Hb.
  erewrite bind_returns by reflexivity. exact Hcons.
Qed.

Lemma reaches_record_build_raises {C} self client key (build : json -> result C) consumer
    fuel start w0 record w_a e :
  reaches_record self client key build consumer fuel start w0 record w_a ->
  build record = Err e ->
  while_url fuel (JStr start) (paginate self client key build consumer) w0 = (Raised e, w_a).
Proof.
  intros [f [u [w [Ha Hr]]]] Hb. rewrite (arrives_while _ _ _ _ _ _ _ Ha).
  eapply at_record_build_raises; eauto.
Qed.

Lemma reaches_record_consumer_raises {C} self client key (build : json -> result C)
    consumer fuel start w0 record w_a c e w' :
  reaches_record self client key build consumer fuel start w0 record w_a ->
  build record = Ok c ->
  consumer c w_a = (Raised e, w') ->
  while_url fuel (JStr start) (paginate self client key build consumer) w0 = (Raised e, w').
Proof.
  intros [f [u [w [Ha Hr]]]] Hb Hc. rewrite (arrives_while _ _ _ _ _ _ _ Ha).
  eapply at_record_consumer_raises; eauto.
Qed.

(** What a generator raises, the run raises: [generate_chunks] has no
    handler. *)
Lemma run_raises_with_generator self fuel replies e w' :
  (_generate_organization_chunks self fuel httpx_AsyncClient
     (fun org_chunk => emit (OrganizationChunk org_chunk)) (initial replies)
   = (Raised e, w') ->
   run self fuel replies = (Raised e, w')) /\
  (forall w1,
     _generate_organization_chunks self fuel httpx_AsyncClient
       (fun org_chunk => emit (OrganizationChunk org_chunk)) (initial replies)
     = (Returned tt, w1) ->
     (_generate_user_chunks self fuel httpx_AsyncClient
        (fun user_chunk => emit (UserChunk user_chunk)) w1 = (Raised e, w') ->
      run self fuel replies = (Raised e, w')) /\
     (forall w2,
        _generate_user_chunks self fuel httpx_AsyncClient
          (fun user_chunk => emit (UserChunk user_chunk)) w1 = (Returned tt, w2) ->
        _generate_ticket_chunks self fuel httpx_AsyncClient
          (ticket_and_comments self fuel httpx_AsyncClient) w2 = (Raised e, w') ->
        run self fuel replies = (Raised e, w'))).
Proof.
  unfold run. rewrite generate_chunks_unfold. split.
  - intros H. unfold bind. now rewrite H.
  - intros w1 H1. split.
    + intros H. unfold bind. now rewrite H1, H.
    + intros w2 H2 H. unfold bind. now rewrite H1, H2, H.
Qed.

(** C10: a record that is a dict without ["id"] makes its generator raise
    [KeyError] at that record, and the run aborts there.  The chunk
    constructors raise.  In the loop, on a page whose record array holds
    such a record, the records before it are handled, then the exception
    leaves the loop: neither the records after it nor any further page is
    touched.  And in a run: when the organization generator, or the user
    generator after it, or the ticket generator after both, or the comment
    generator started for a ticket, comes to such a record, the run raises
    [KeyError] in the world it had on coming to that record: nothing more
    is yielded or asked for. *)
Theorem record_without_id_aborts :
  forall d : list (string * json),
    dict_get "id" d = None ->
    (organization_chunk (JObj d) = Err (KeyError "id") /\
     user_chunk (JObj d) = Err (KeyError "id") /\
     ticket_chunk (JObj d) = Err (KeyError "id") /\
     forall ticket_id, comment_chunk ticket_id (JObj d) = Err (KeyError "id")) /\
    (forall (self : ZendeskSource) (client : AsyncClient) (fuel : nat) (u : string)
            (w : world) (r : Response) (rest : list reply) (data : list (string * json))
            (before after : list json),
       truthy (JStr u) = true ->
       script w = Reply r :: rest ->
       is_success (status_code r) = true ->
       content r = Some (JObj data) ->
       let records := JList (before ++ JObj d :: after) in
       let w' := sent self u w rest in
       (dict_get "organizations" data = Some records ->
        forall yield_,
          while_url (S fuel) (JStr u) (organizations_page self client yield_) w =
          (for_in before (fun record => c <- lift (organization_chunk record) ;; yield_ c) ;;
           raise (KeyError "id"))%gen w') /\
       (dict_get "users" data = Some records ->
        forall yield_,
          while_url (S fuel) (JStr u) (users_page self client yield_) w =
          (for_in before (fun record => c <- lift (user_chunk record) ;; yield_ c) ;;
           raise (KeyError "id"))%gen w') /\
       (dict_get "tickets" data = Some records ->
        forall yield_,
          while_url (S fuel) (JStr u) (tickets_page self client yield_) w =
          (for_in before (fun record => c <- lift (ticket_chunk record) ;; yield_ c) ;;
           raise (KeyError "id"))%gen w') /\
       (dict_get "comments" data = Some records ->
        forall ticket_id yield_,
          while_url (S fuel) (JStr u) (comments_page self client ticket_id yield_) w =
          (for_in before
             (fun record => c <- lift (comment_chunk ticket_id record) ;; yield_ c) ;;
           raise (KeyError "id"))%gen w')) /\
    (forall (self : ZendeskSource) (fuel : nat) (replies : list reply) (w_a : world),
       (reaches_record self httpx_AsyncClient "organizations" organization_chunk
          (fun org_chunk => emit (OrganizationChunk org_chunk))
          fuel organizations_url (initial replies) (JObj d) w_a ->
        run self fuel replies = (Raised (KeyError "id"), w_a)) /\
       (forall w1,
          _generate_organization_chunks self fuel httpx_AsyncClient
            (fun org_chunk => emit (OrganizationChunk org_chunk)) (initial replies)
          = (Returned tt, w1) ->
          (reaches_record self httpx_AsyncClient "users" user_chunk
             (fun user_chunk => emit (UserChunk user_chunk))
             fuel users_url w1 (JObj d) w_a ->
           run self fuel replies = (Raised (KeyError "id"), w_a)) /\
          (forall w2,
             _generate_user_chunks self fuel httpx_AsyncClient
               (fun user_chunk => emit (UserChunk user_chunk)) w1 = (Returned tt, w2) ->
             (reaches_record self httpx_AsyncClient "tickets" ticket_chunk
                (ticket_and_comments self fuel httpx_AsyncClient)
                fuel tickets_url w2 (JObj d) w_a ->
              run self fuel replies = (Raised (KeyError "id"), w_a)) /\
             (forall (record : json) (t : ZendeskTicketChunk.t) (w_t : world),
                reaches_record self httpx_AsyncClient "tickets" ticket_chunk
                  (ticket_and_comments self fuel httpx_AsyncClient)
                  fuel tickets_url w2 record w_t ->
                ticket_chunk record = Ok t ->
                reaches_record self httpx_AsyncClient "comments"
                  (comment_chunk (ZendeskTicketChunk.entity_id t))
                  (fun comment_chunk => emit (CommentChunk comment_chunk))
                  fuel (comments_url (ZendeskTicketChunk.entity_id t))
                  (snd (emit (TicketChunk t) w_t)) (JObj d) w_a ->
                run self fuel replies = (Raised (KeyError "id"), w_a))))).
Proof.
  intros d Hid.
  assert (Ho : organization_chunk (JObj d) = Err (KeyError "id"))
    by (rewrite organization_chunk_obj, Hid; reflexivity).
  assert (Hu : user_chunk (JObj d) = Err (KeyError "id"))
    by (rewrite user_chunk_obj, Hid; reflexivity).
  assert (Ht : ticket_chunk (JObj d) = Err (KeyError "id"))
    by (rewrite ticket_chunk_obj, Hid; reflexivity).
  assert (Hc : forall tid, comment_chunk tid (JObj d) = Err (KeyError "id"))
    by (intros tid; rewrite comment_chunk_obj, Hid; reflexivity).
  split; [auto|]. split.
  - intros self client fuel u w r rest data before after Hurl Hs Hok Hbody records w'.
    subst records w'. repeat split; intros.
    + rewrite organizations_page_paginate. eapply while_paginate_abort; eauto.
    + rewrite users_page_paginate. eapply while_paginate_abort; eauto.
    + rewrite tickets_page_paginate. eapply while_paginate_abort; eauto.
    + rewrite comments_page_paginate. eapply while_paginate_abort; eauto.
  - intros self fuel replies w_a.
    destruct (run_raises_with_generator self fuel replies (KeyError "id") w_a)
      as [Rorg Rlater].
    split.
    + intros Hr. apply Rorg.
      exact (reaches_record_build_raises _ _ _ _ _ _ _ _ _ _ _ Hr Ho).
    + intros w1 H1. destruct (Rlater w1 H1) as [Rusers Rtickets]. split.
      * intros Hr. apply Rusers.
        exact (reaches_record_build_raises _ _ _ _ _ _ _ _ _ _ _ Hr Hu).
      * intros w2 H2. split.
        -- intros Hr. apply (Rtickets w2 H2).
           exact (reaches_record_build_raises _ _ _ _ _ _ _ _ _ _ _ Hr Ht).
        -- intros record t w_t Hrt Hbt Hrc. apply (Rtickets w2 H2).
           refine (reaches_record_consumer_raises _ _ _ _ _ _ _ _ _ _ _ _ _ Hrt Hbt _).
           unfold ticket_and_comments. erewrite bind_returns by reflexivity.
           exact (reaches_record_build_raises _ _ _ _ _ _ _ _ _ _ _ Hrc (Hc _)).
Qed.

Lemma record_without_id_aborts_witness :
  run (create "token") 5 replies_with_unnamed_organization =
  (Raised (KeyError "id"),
   {| script := [page_reply []];
      requests := gets (create "token") [organizations_url];
      emitted := [organization_of_id "1"] |}) /\
  run (create "token") 7 replies_with_unnamed_comment =
  (Raised (KeyError "id"),
   {| script := [page_reply []];
      requests := gets (create "token")
                    [organizations_url; users_url; tickets_url; comments_url "42"];
      emitted := [TicketChunk (ticket_of_id "42"); CommentChunk (comment_of_id "100" "42")] |}).
Proof.
  destruct (record_without_id_aborts [("name", JStr "acme")]%string eq_refl)
    as [_ [_ Hrun]].
  split.
  - apply (Hrun (create "token") 5%nat replies_with_unnamed_organization).
    exists 4%nat, organizations_url, (initial replies_with_unnamed_organization).
    split; [apply arrives_now|].
    split; [reflexivity|].
    eexists; exists [page_reply []]; eexists; exists [record_of_id 1], [record_of_id 3].
    split; [reflexivity|]. split; [reflexivity|]. split; [reflexivity|].
    split; reflexivity.
  - destruct (Hrun (create "token") 7%nat replies_with_unnamed_comment
                {| script := [page_reply []];
                   requests := gets (create "token")
                                 [organizations_url; users_url; tickets_url; comments_url "42"];
                   emitted := [TicketChunk (ticket_of_id "42");
                               CommentChunk (comment_of_id "100" "42")] |})
      as [_ Hlater].
    destruct (Hlater _ eq_refl) as [_ Htickets].
    destruct (Htickets _ eq_refl) as [_ Hcomments].
    apply (Hcomments (record_of_id 42) (ticket_of_id "42")
             {| script := skipn 3 replies_with_unnamed_comment;
                requests := gets (create "token") [organizations_url; users_url; tickets_url];
                emitted := [] |}).
    + exists 6%nat, tickets_url. eexists.
      split; [apply arrives_now|].
      split; [reflexivity|].
      eexists; eexists; eexists; exists [], [].
      split; [reflexivity|]. split; [reflexivity|]. split; [reflexivity|].
      split; reflexivity.
    + reflexivity.
    + exists 6%nat, (comments_url "42"). eexists.
      split; [apply arrives_now|].
      split; [reflexivity|].
      eexists; eexists; eexists; exists [record_of_id 100], [record_of_id 102].
      split; [reflexivity|]. split; [reflexivity|]. split; [reflexivity|].
      split; reflexivity.
Defined.

(** ** The order of the whole stream *)

Lemma world_eta w :
  w = {| script := script w; requests := requests w; emitted := emitted w |}.
Proof. destruct w; reflexivity. Qed.

(** A ticket whose comments are served by one walk: its chunk, then the
    chunks of all the comments of the walk. *)
Lemma ticket_and_comments_served self fuel client t pages urls comments w rest :
  walked "comments" (comment_chunk (ZendeskTicketChunk.entity_id t))
    (comments_url (ZendeskTicketChunk.entity_id t)) pages urls comments ->
  (List.length pages <= fuel)%nat ->
  script w = map page_reply pages ++ rest ->
  ticket_and_comments self fuel client t w =
  (Returned tt,
   {| script := rest;
      requests := requests w ++ gets self urls;
      emitted := emitted w ++ TicketChunk t :: map CommentChunk comments |}).
Proof.
  intros Hw Hf Hs. unfold ticket_and_comments.
  erewrite bind_returns by reflexivity.
  unfold _generate_comment_chunks. rewrite comments_page_paginate.
  erewrite while_paginate_walked; [| exact Hw | reflexivity | exact Hf | exact Hs].
  simpl. now rewrite <- app_assoc.
Qed.

Lemma records_served_for_in self fuel client items served stream :
  records_served items served stream ->
  forall w rest,
    (List.length served <= fuel)%nat ->
    script w = served ++ rest ->
    exists sent_,
      for_in items
        (fun record => c <- lift (ticket_chunk record) ;;
                       ticket_and_comments self fuel client c) w =
      (Returned tt,
       {| script := rest; requests := requests w ++ sent_; emitted := emitted w ++ stream |}).
Proof.
  induction 1 as [| record t pages urls comments items served stream Ht Hw Hr IH];
    intros w rest Hf Hs.
  - exists []. simpl in *. rewrite !app_nil_r, <- Hs. now rewrite <- world_eta.
  - rewrite length_app, length_map in Hf. rewrite <- app_assoc in Hs.
    simpl. erewrite bind_returns;
      [| rewrite Ht; erewrite bind_returns by reflexivity;
         apply (ticket_and_comments_served self fuel client t pages urls comments w
                  (served ++ rest) Hw ltac:(lia) Hs)].
    destruct (IH {| script := served ++ rest;
                    requests := requests w ++ gets self urls;
                    emitted := emitted w ++ TicketChunk t :: map CommentChunk comments |}
                 rest ltac:(lia) eq_refl) as [sent_ E].
    exists (gets self urls ++ sent_). rewrite E. simpl.
    now rewrite <- !app_assoc.
Qed.

Lemma tickets_served_loop self fuel client served stream :
  tickets_served served stream ->
  forall f u w rest,
    truthy (JStr u) = true ->
    (List.length served <= fuel)%nat ->
    (List.length served <= f)%nat ->
    script w = served ++ rest ->
    exists sent_,
      while_url f (JStr u)
        (paginate self client "tickets" ticket_chunk (ticket_and_comments self fuel client)) w =
      (Returned tt,
       {| script := rest; requests := requests w ++ sent_; emitted := emitted w ++ stream |}).
Proof.
  induction 1 as [body items served stream Hi Hr Hn
                 | body items served stream next more stream' Hi Hr Hn Ht Hm IH];
    intros f u w rest Hu Hfuel Hf Hs; simpl in Hfuel, Hf, Hs.
  - destruct f as [|f]; [lia|]. rewrite while_url_step by assumption.
    destruct (records_served_for_in self fuel client items served stream Hr
                (sent self u w (served ++ rest)) rest ltac:(lia) eq_refl) as [sent_ E].
    erewrite bind_returns;
      [| rewrite (paginate_reply _ _ _ _ _ _ _ _ _ _ Hs eq_refl eq_refl), Hi;
         erewrite bind_returns by reflexivity;
         erewrite bind_returns by exact E; reflexivity].
    rewrite while_url_falsy by assumption.
    exists (gets self [u] ++ sent_). simpl. now rewrite <- app_assoc.
  - destruct f as [|f]; [lia|]. rewrite while_url_step by assumption.
    rewrite length_app in Hfuel, Hf. rewrite <- app_assoc in Hs.
    destruct (records_served_for_in self fuel client items served stream Hr
                (sent self u w (served ++ more ++ rest)) (more ++ rest) ltac:(lia) eq_refl)
      as [sent_ E].
    erewrite bind_returns;
      [| rewrite (paginate_reply _ _ _ _ _ _ _ _ _ _ Hs eq_refl eq_refl), Hi;
         erewrite bind_returns by reflexivity;
         erewrite bind_returns by exact E; reflexivity].
    rewrite Hn.
    destruct (IH f next
                {| script := more ++ rest;
                   requests := requests (sent self u w (served ++ more ++ rest)) ++ sent_;
                   emitted := emitted (sent self u w (served ++ more ++ rest)) ++ stream |}
                rest Ht ltac:(lia) ltac:(lia) eq_refl) as [sent' E'].
    rewrite E'. exists (gets self [u] ++ sent_ ++ sent'). simpl.
    now rewrite <- !app_assoc.
Qed.

Lemma stream_segments self fuel replies :
  exists organizations users tickets,
    emitted (snd (run self fuel replies)) = organizations ++ users ++ tickets /\
    Forall (fun c => is_organization c = true) organizations /\
    Forall (fun c => is_user c = true) users /\
    ticket_blocks tickets /\
    organizations =
      emitted (snd (_generate_organization_chunks self fuel httpx_AsyncClient
                      (fun org_chunk => emit (OrganizationChunk org_chunk))
                      (initial replies))) /\
    (forall w1,
       _generate_organization_chunks self fuel httpx_AsyncClient
         (fun org_chunk => emit (OrganizationChunk org_chunk)) (initial replies)
       = (Returned tt, w1) ->
       organizations ++ users =
       emitted (snd (_generate_user_chunks self fuel httpx_AsyncClient
                       (fun user_chunk => emit (UserChunk user_chunk)) w1))) /\
    (forall w1 w2,
       _generate_organization_chunks self fuel httpx_AsyncClient
         (fun org_chunk => emit (OrganizationChunk org_chunk)) (initial replies)
       = (Returned tt, w1) ->
       _generate_user_chunks self fuel httpx_AsyncClient
         (fun user_chunk => emit (UserChunk user_chunk)) w1 = (Returned tt, w2) ->
       organizations ++ users ++ tickets =
       emitted (snd (_generate_ticket_chunks self fuel httpx_AsyncClient
                       (ticket_and_comments self fuel httpx_AsyncClient) w2))).
Proof.
  unfold run. rewrite generate_chunks_unfold.
  set (orgs := _generate_organization_chunks _ _ _ _).
  set (users := _generate_user_chunks _ _ _ _).
  set (tickets := _generate_ticket_chunks _ _ _ _).
  destruct (yields_organizations self fuel httpx_AsyncClient (initial replies))
    as [o [Eo Ho]]. fold orgs in Eo. simpl in Eo.
  unfold bind at 1. destruct (orgs (initial replies)) as [[[] | e | | ] w1] eqn:Eorgs;
    simpl in Eo;
    try (exists o, [], []; rewrite app_nil_r; simpl;
         split; [first [exact Eo | symmetry; exact Eo]|]; split; [assumption|]; split; [constructor|];
         split; [constructor|]; split; [first [exact Eo | symmetry; exact Eo]|];
         split; [intros w H; discriminate H | intros w w' H; discriminate H]).
  destruct (yields_users self fuel httpx_AsyncClient w1) as [us [Eu Hu]].
  fold users in Eu. rewrite Eo in Eu.
  unfold bind. destruct (users w1) as [[[] | e | | ] w2] eqn:Eusers; simpl in Eu;
    try (exists o, us, []; rewrite app_nil_r; simpl;
         split; [assumption|]; split; [assumption|]; split; [assumption|];
         split; [constructor|]; split; [first [exact Eo | symmetry; exact Eo]|];
         split; [intros w H; inversion H; subst w; now rewrite Eusers
                | intros w w' H H'; inversion H; subst w; rewrite Eusers in H'; discriminate H']).
  destruct (yields_tickets self fuel httpx_AsyncClient w2) as [ts [Et Ht]].
  fold tickets in Et.
  exists o, us, ts. rewrite Et, Eu, <- app_assoc.
  split; [reflexivity|]. split; [assumption|]. split; [assumption|].
  split; [assumption|]. split; [first [exact Eo | symmetry; exact Eo]|]. split.
  - intros w H. inversion H; subst w. now rewrite Eusers.
  - intros w w' H H'. inversion H; subst w. rewrite Eusers in H'.
    inversion H'; subst w'. now rewrite Et, Eu, <- app_assoc.
Qed.

(** A remote that serves the three listings to the end: the run returns,
    having yielded every record in order. *)
Lemma run_served self fuel pages_o urls_o orgs pages_u urls_u users served stream rest :
  walked "organizations" organization_chunk organizations_url pages_o urls_o orgs ->
  walked "users" user_chunk users_url pages_u urls_u users ->
  tickets_served served stream ->
  (List.length (map page_reply pages_o ++ map page_reply pages_u ++ served ++ rest)
   <= fuel)%nat ->
  exists sent_,
    run self fuel (map page_reply pages_o ++ map page_reply pages_u ++ served ++ rest) =
    (Returned tt,
     {| script := rest;
        requests := sent_;
        emitted := map OrganizationChunk orgs ++ map UserChunk users ++ stream |}).
Proof.
  intros Ho Hu Ht Hf. rewrite !length_app, !length_map in Hf.
  unfold run. rewrite generate_chunks_unfold.
  erewrite bind_returns;
    [| unfold _generate_organization_chunks; rewrite organizations_page_paginate;
       eapply (while_paginate_walked self httpx_AsyncClient "organizations"
                 organization_chunk OrganizationChunk organizations_url);
       [exact Ho | reflexivity | lia | reflexivity]].
  erewrite bind_returns;
    [| unfold _generate_user_chunks; rewrite users_page_paginate;
       eapply (while_paginate_walked self httpx_AsyncClient "users"
                 user_chunk UserChunk users_url);
       [exact Hu | reflexivity | lia | reflexivity]].
  unfold _generate_ticket_chunks. rewrite tickets_page_paginate.
  match goal with
  | |- exists _, while_url _ _ _ ?w = _ =>
      destruct (tickets_served_loop self fuel httpx_AsyncClient served stream Ht fuel
                  tickets_url w rest eq_refl ltac:(lia) ltac:(lia) eq_refl) as [sent_ E]
  end.
  change (JStr "https://your_subdomain.zendesk.com/api/v2/tickets.json")
    with (JStr tickets_url).
  rewrite E. eexists. simpl.
  rewrite <- (app_assoc (map OrganizationChunk orgs)). reflexivity.
Qed.

(** C2: the chunks of a run come in this order.  In every run: first the
    organization chunks, all that the organization generator yields; then
    the user chunks, all that the user generator yields once the
    organizations are done; then all that the ticket generator yields
    when, for each ticket it fetches, its chunk is yielded and then
    everything the comment generator yields for that ticket: ticket by
    ticket, a ticket chunk followed by comment chunks of that ticket, up to
    the next ticket chunk.  And against a remote that serves the three
    listings to the end, with for each ticket a walk over its comments, the
    run returns and its chunks are those of the organization records, then
    of the user records, then for each ticket record, in the order of the
    pages and of the records in a page, its chunk followed by the chunks of
    all the comment records of its walk. *)
Theorem chunks_in_order :
  (forall (self : ZendeskSource) (fuel : nat) (replies : list reply),
   exists organizations users tickets,
     emitted (snd (run self fuel replies)) = organizations ++ users ++ tickets /\
     Forall (fun c => is_organization c = true) organizations /\
     Forall (fun c => is_user c = true) users /\
     ticket_blocks tickets /\
     organizations =
       emitted (snd (_generate_organization_chunks self fuel httpx_AsyncClient
                       (fun org_chunk => emit (OrganizationChunk org_chunk))
                       (initial replies))) /\
     (forall w1,
        _generate_organization_chunks self fuel httpx_AsyncClient
          (fun org_chunk => emit (OrganizationChunk org_chunk)) (initial replies)
        = (Returned tt, w1) ->
        organizations ++ users =
        emitted (snd (_generate_user_chunks self fuel httpx_AsyncClient
                        (fun user_chunk => emit (UserChunk user_chunk)) w1))) /\
     (forall w1 w2,
        _generate_organization_chunks self fuel httpx_AsyncClient
          (fun org_chunk => emit (OrganizationChunk org_chunk)) (initial replies)
        = (Returned tt, w1) ->
        _generate_user_chunks self fuel httpx_AsyncClient
          (fun user_chunk => emit (UserChunk user_chunk)) w1 = (Returned tt, w2) ->
        organizations ++ users ++ tickets =
        emitted (snd (_generate_ticket_chunks self fuel httpx_AsyncClient
                        (fun ticket_chunk =>
                           emit (TicketChunk ticket_chunk) ;;
                           _generate_comment_chunks self fuel httpx_AsyncClient
                             (ZendeskTicketChunk.entity_id ticket_chunk)
                             (fun comment_chunk => emit (CommentChunk comment_chunk)))%gen
                        w2)))) /\
  (forall (self : ZendeskSource) (fuel : nat)
          (organization_pages : list (list (string * json))) (organization_urls : list string)
          (organizations : list ZendeskOrganizationChunk.t)
          (user_pages : list (list (string * json))) (user_urls : list string)
          (users : list ZendeskUserChunk.t)
          (served : list reply) (stream : list BaseChunk) (rest : list reply),
      walked "organizations" organization_chunk organizations_url
        organization_pages organization_urls organizations ->
      walked "users" user_chunk users_url user_pages user_urls users ->
      tickets_served served stream ->
      (List.length (map page_reply organization_pages ++ map page_reply user_pages
                    ++ served ++ rest) <= fuel)%nat ->
      let replies :=
        map page_reply organization_pages ++ map page_reply user_pages ++ served ++ rest in
      fst (run self fuel replies) = Returned tt /\
      emitted (snd (run self fuel replies)) =
        map OrganizationChunk organizations ++ map UserChunk users ++ stream /\
      script (snd (run self fuel replies)) = rest).
Proof.
  split.
  - intros self fuel replies. exact (stream_segments self fuel replies).
  - intros self fuel pages_o urls_o orgs pages_u urls_u users served stream rest
           Ho Hu Ht Hf replies.
    destruct (run_served self fuel pages_o urls_o orgs pages_u urls_u users served stream
                rest Ho Hu Ht Hf) as [sent_ E].
    subst replies. rewrite E. auto.
Qed.

Lemma chunks_in_order_witness :
  fst (run (create "token") 7 ticket_42_replies) = Returned tt /\
  emitted (snd (run (create "token") 7 ticket_42_replies)) =
  [TicketChunk (ticket_of_id "42");
   CommentChunk (comment_of_id "100" "42");
   CommentChunk (comment_of_id "101" "42");
   CommentChunk (comment_of_id "102" "42");
   TicketChunk (ticket_of_id "43")] /\
  script (snd (run (create "token") 7 ticket_42_replies)) = [].
Proof.
  destruct chunks_in_order as [_ Hserved].
  apply (Hserved (create "token") 7%nat [[]] [organizations_url] [] [[]] [users_url] []
           (page_reply [("tickets", JList [record_of_id 42; record_of_id 43])]%string
            :: (map page_reply
                  [[("comments", JList [record_of_id 100; record_of_id 101]);
                    ("next_page", JStr "https://your_subdomain.zendesk.com/comments2")];
                   [("comments", JList [record_of_id 102])]]%string
                ++ map page_reply [[]] ++ []))
           (TicketChunk (ticket_of_id "42")
            :: map CommentChunk ([comment_of_id "100" "42"; comment_of_id "101" "42"]
                                 ++ [comment_of_id "102" "42"])
            ++ TicketChunk (ticket_of_id "43") :: map CommentChunk [] ++ [])
           []).
  - eapply walked_last; [reflexivity | constructor | reflexivity].
  - eapply walked_last; [reflexivity | constructor | reflexivity].
  - eapply tickets_served_last; [reflexivity | | reflexivity].
    eapply (records_served_cons (record_of_id 42) (ticket_of_id "42"));
      [reflexivity | | ].
    + eapply walked_next;
        [reflexivity
        | constructor; [reflexivity | constructor; [reflexivity | constructor]]
        | reflexivity | reflexivity | ].
      eapply walked_last; [reflexivity | constructor; [reflexivity | constructor] | reflexivity].
    + eapply (records_served_cons (record_of_id 43) (ticket_of_id "43"));
        [reflexivity | | constructor].
      eapply walked_last; [reflexivity | constructor | reflexivity].
  - simpl. lia.
Defined.
